(** * IWAnno: the image/mask preprocessing of the three dataset classes

    A shallow embedding of [datapacks/iw_dataset.py] (ResizeCrop),
    [datapacks/IWFullSceneDataset.py] (Tiling) and
    [datapacks/TopLeftPad.py] (PadCrop).

    Arrays are lists of rows; an (H, W, 3) uint8 array is a list of rows
    of channel triples.  Python integers are [Z].  What the code asks of
    NumPy, OpenCV, SciPy and torch and cannot be read off the repository
    (float32 arithmetic, interpolation kernels, the luminance formula) is
    gathered in the class [Externals]; everything else follows the source
    line by line. *)

From Stdlib Require Import ZArith List Sorted Lia Bool Ascii String QArith Qround Qabs Lqa.
From stdpp Require Import base option gmap.
Import ListNotations.
Open Scope Z_scope.

(** ** Arrays *)

Definition pixel : Type := Z * Z * Z.

Definition array2 (A : Type) : Type := list (list A).

Definition img3 : Type := array2 pixel.

(** [arr.shape[0]] and [arr.shape[1]]. *)
Definition height {A : Type} (a : array2 A) : Z := Z.of_nat (length a).

Definition width {A : Type} (a : array2 A) : Z :=
  match a with
  | [] => 0
  | r :: _ => Z.of_nat (length r)
  end.

(** NumPy arrays are rectangular: [h] rows of [w] elements each. *)
Definition has_shape {A : Type} (a : array2 A) (h w : nat) : Prop :=
  length a = h /\ Forall (fun r => length r = w) a.

(** [arr.size == 0]. *)
Definition size0 {A : Type} (a : array2 A) : bool :=
  match concat a with
  | [] => true
  | _ :: _ => false
  end.

(** Python slices [l[a:a+n]] for [0 <= a] and [0 <= n]. *)
Definition slice {A : Type} (a n : Z) (l : list A) : list A :=
  firstn (Z.to_nat n) (skipn (Z.to_nat a) l).

(** [arr[row:row+n, col:col+n]]. *)
Definition crop {A : Type} (row col n : Z) (a : array2 A) : array2 A :=
  map (slice col n) (slice row n a).

Definition map2 {A B : Type} (f : A -> B) (a : array2 A) : array2 B :=
  map (map f) a.

(** What [cv2.imread(path, cv2.IMREAD_UNCHANGED)] can return. *)
Inductive raw_image : Type :=
| Gray (a : array2 Z)
| Color3 (a : img3)
| Color4 (a : array2 (Z * Z * Z * Z)).

(** ** Exceptions *)

Inductive error : Type :=
| FileNotFoundError (msg : string)
| ImageSmallerThanCrop (filename : string) (img_size : Z)
    (* ValueError(f"Image {filename} is smaller than crop size {img_size}") *)
| RangeStepZero
    (* ValueError: range() arg 3 must not be zero *)
| VectorizeSizeZero
    (* ValueError: cannot call `vectorize` on size 0 inputs *)
| NoneToInt
    (* TypeError: int() argument must be ... not 'NoneType' *)
| UnknownPixelValues
    (* ValueError("Found unknown pixel values in mask!") *)
| UnknownColors (mask_path : string) (values : list Z)
    (* ValueError(f"apply_color_map found unknown color(s) in mask
       '{mask_path}': {unique_problem_values}") *)
| CvError (what : string)
    (* cv2.error *)
| BroadcastError
    (* ValueError: could not broadcast input array *)
| TorchError (what : string)
    (* RuntimeError raised by torch *)
| NegativeDimensions
    (* ValueError: negative dimensions are not allowed *)
| ZeroDivisionError.

Inductive result (A : Type) : Type :=
| Ok (a : A)
| Err (e : error).

Arguments Ok {A} a.
Arguments Err {A} e.

Definition bind {A B : Type} (r : result A) (k : A -> result B) : result B :=
  match r with
  | Ok a => k a
  | Err e => Err e
  end.

Notation "'do' x <- r ; k" := (bind r (fun x => k))
  (at level 10, x name, r at level 100, k at level 200).

(** A generator: what it yielded, and the exception that ended it if any. *)
Record generated (A : Type) : Type := Generated {
  yielded : list A;
  raised : option error
}.

Arguments Generated {A} yielded raised.
Arguments yielded {A} g.
Arguments raised {A} g.

Definition gen_done {A : Type} : generated A := Generated [] None.

Definition gen_raise {A : Type} (e : error) : generated A := Generated [] (Some e).

(** Run [first], and [rest] only when [first] ended without an exception. *)
Definition gen_seq {A : Type} (first : generated A) (rest : generated A) : generated A :=
  match raised first with
  | Some e => first
  | None => Generated (yielded first ++ yielded rest) (raised rest)
  end.

(** [for x in xs: body(x)] inside a generator. *)
Fixpoint gen_for {A B : Type} (xs : list A) (body : A -> generated B) : generated B :=
  match xs with
  | [] => gen_done
  | x :: xs' => gen_seq (body x) (gen_for xs' body)
  end.

(** [yield v] after computing [v], which may raise. *)
Definition gen_yield {A : Type} (r : result A) : generated A :=
  match r with
  | Ok v => Generated [v] None
  | Err e => gen_raise e
  end.

(** ** Python's [range] *)

(** [len(range(start, stop, step))] for a non-zero step. *)
Definition range_len (start stop step : Z) : Z :=
  if 0 <? step then
    if start <? stop then (stop - start - 1) / step + 1 else 0
  else
    if stop <? start then (start - stop - 1) / (- step) + 1 else 0.

(** The items of [range(start, stop, step)]: [start + k * step]. *)
Definition range_items (start stop step : Z) : list Z :=
  map (fun k => start + Z.of_nat k * step)
      (seq 0 (Z.to_nat (range_len start stop step))).

Definition py_range (start stop step : Z) : result (list Z) :=
  if step =? 0 then Err RangeStepZero
  else Ok (range_items start stop step).

(** ** The colour codec *)

(** [color_map], the same class attribute in the three classes. *)
Definition color_map : list (pixel * Z) :=
  [ ((0, 0, 0), 0);
    ((255, 255, 255), 1) ].

(** [(c0.astype(uint32) << 16) | (c1.astype(uint32) << 8) | c2.astype(uint32)]:
    the channels are uint8, so nothing wraps in 32 bits. *)
Definition encode (p : pixel) : Z :=
  let '(c0, c1, c2) := p in
  Z.lor (Z.lor (Z.shiftl c0 16) (Z.shiftl c1 8)) c2.

Definition color_keys_encoded : list Z :=
  map (fun kv => encode (fst kv)) color_map.

(** [indexed_mask.astype(np.uint8)]. *)
Definition astype_uint8 (v : Z) : Z := v mod 256.

(** [np.unique]: the sorted distinct values. *)
Fixpoint insert_unique (x : Z) (l : list Z) : list Z :=
  match l with
  | [] => [x]
  | y :: l' =>
      if x <? y then x :: y :: l'
      else if x =? y then y :: l'
      else y :: insert_unique x l'
  end.

Definition np_unique (l : list Z) : list Z :=
  fold_right insert_unique [] l.

(** [dict(zip(color_keys_encoded, cls.color_map.values()))]. *)
Definition color_to_index : gmap Z Z :=
  fold_left (fun (m : gmap Z Z) '(k, v) => <[k := v]> m)
            (combine color_keys_encoded (map snd color_map))
            ∅.

(** [np.vectorize(lambda x: color_to_index.get(x, None))(mask_encoded)].
    Without [otypes], [np.vectorize] refuses an empty input, takes the
    output dtype from the result at the first element, evaluates the
    function everywhere into an object array and converts that array to
    the dtype: when the first lookup hits, the dtype is an integer one and
    a later [None] makes the conversion raise; when it misses, the dtype is
    [object] and the [None]s stay. *)
Definition vectorize_get (mask_encoded : array2 Z) : result (array2 (option Z)) :=
  match concat mask_encoded with
  | [] => Err VectorizeSizeZero
  | x0 :: _ =>
      let outputs := map2 (fun x => color_to_index !! x) mask_encoded in
      match color_to_index !! x0 with
      | Some _ =>
          if forallb (forallb (fun o : option Z => bool_decide (is_Some o))) outputs
          then Ok outputs
          else Err NoneToInt
      | None => Ok outputs
      end
  end.

Definition is_None_b (o : option Z) : bool :=
  match o with
  | None => true
  | Some _ => false
  end.

(** [mask_encoded[indexed_mask == None]], flattened in row-major order. *)
Definition problem_values (mask_encoded : array2 Z) (indexed_mask : array2 (option Z)) : list Z :=
  map fst (List.filter (fun ei => is_None_b (snd ei))
                  (combine (concat mask_encoded) (concat indexed_mask))).

Definition index_or_zero (o : option Z) : Z :=
  match o with
  | Some v => v
  | None => 0
  end.

(** ** What the libraries compute *)

Inductive interpolation : Type := INTER_LINEAR | INTER_AREA | INTER_NEAREST.

Class Externals : Type := {
  (** float32 arrays of NumPy and torch *)
  float32 : Type;
  astype_float32 : Z -> float32;
  f32_literal : Q -> float32;
  f32_sub : float32 -> float32 -> float32;
  f32_div : float32 -> float32 -> float32;
  (** Python floats *)
  pyfloat : Type;
  int_truediv : Z -> Z -> pyfloat;        (* a / b on two ints, b <> 0 *)
  int_mul_float : Z -> pyfloat -> pyfloat; (* n * x *)
  py_round : pyfloat -> Z;                (* int(round(x)) *)
  (** [cv2.resize]'s kernel for a non-empty source and destination *)
  interpolate : interpolation -> img3 -> nat -> nat -> img3;
  (** [cv2.COLOR_RGB2GRAY] on one pixel *)
  rgb2gray : pixel -> Z;
  (** [cv2.cvtColor(image, cv2.COLOR_BGRA2BGR)] on a two-dimensional array,
      which OpenCV reads as a one-channel image: whether it raises or
      returns an image is the library's matter (OpenCV 4 refuses the source,
      OpenCV 5 returns an image) *)
  bgra2bgr_of_gray : array2 Z -> result img3;
  (** [scipy.ndimage.zoom(order=0)]: the source index read for an output
      index, from the two lengths along that axis *)
  zoom_source : nat -> nat -> nat -> nat;
  os_path_join : string -> string -> string
}.

(** [a / b] on Python ints. *)
Definition py_truediv `{Externals} (a b : Z) : result pyfloat :=
  if b =? 0 then Err ZeroDivisionError else Ok (int_truediv a b).

(** [cv2.resize(src, (new_width, new_height), interpolation=interp)]:
    OpenCV asserts that neither the source nor [dsize] is empty. *)
Definition cv2_resize `{Externals} (src : img3) (new_width new_height : Z)
    (interp : interpolation) : result img3 :=
  if size0 src then Err (CvError "resize: empty source")
  else if (new_width <=? 0) || (new_height <=? 0)
  then Err (CvError "resize: empty dsize")
  else Ok (interpolate interp src (Z.to_nat new_height) (Z.to_nat new_width)).

(** [cv2.cvtColor] for the three conversions of the code. *)
Definition COLOR_BGRA2BGR (a : array2 (Z * Z * Z * Z)) : img3 :=
  map2 (fun '(b, g, r, _) => (b, g, r)) a.

Definition COLOR_GRAY2BGR (a : array2 Z) : img3 :=
  map2 (fun v => (v, v, v)) a.

Definition COLOR_BGR2RGB (a : img3) : img3 :=
  map2 (fun '(b, g, r) => (r, g, b)) a.

(** [cv2.threshold(src, thresh, maxval, cv2.THRESH_BINARY)]:
    [maxval] where [src > thresh], 0 elsewhere. *)
Definition THRESH_BINARY (thresh maxval : Z) (src : array2 Z) : array2 Z :=
  map2 (fun v => if thresh <? v then maxval else 0) src.

(** [cv2.merge([a, a, a])]. *)
Definition merge3 (a : array2 Z) : img3 :=
  map2 (fun v => (v, v, v)) a.

(** ** Normalisation *)

Definition mean : Q * Q * Q := (485 # 1000, 456 # 1000, 406 # 1000)%Q.

Definition std : Q * Q * Q := (229 # 1000, 224 # 1000, 225 # 1000)%Q.

Section Normalize.
Context `{Externals}.

Definition f32pixel : Type := float32 * float32 * float32.

  (** A (3, H, W) tensor: its three planes. *)
Definition tensor3 : Type := array2 float32 * array2 float32 * array2 float32.

  (** [image.astype(np.float32) / 255.0]. *)
Definition to_unit_float (img : img3) : array2 f32pixel :=
    let scale v := f32_div (astype_float32 v) (f32_literal (255 # 1)) in
    map2 (fun '(c0, c1, c2) => (scale c0, scale c1, scale c2)) img.

  (** [torch.from_numpy(a).permute(2, 0, 1).float()]. *)
Definition permute_2_0_1 (a : array2 f32pixel) : tensor3 :=
    (map2 (fun p => fst (fst p)) a, map2 (fun p => snd (fst p)) a, map2 snd a).

  (** [t.permute(1, 2, 0).numpy()]. *)
Definition permute_1_2_0 (t : tensor3) : array2 f32pixel :=
    let '(t0, t1, t2) := t in
    zip_with (fun r01 r2 => zip_with (fun p01 c2 => (fst p01, snd p01, c2)) r01 r2)
             (zip_with (fun r0 r1 => zip_with pair r0 r1) t0 t1) t2.

  (** [Normalize(mean, std)(t)]: [t.sub_(mean[c]).div_(std[c])] on plane [c]. *)
Definition normalize (t : tensor3) : tensor3 :=
    let '(t0, t1, t2) := t in
    let '(m0, m1, m2) := mean in
    let '(s0, s1, s2) := std in
    let plane m s := map2 (fun x => f32_div (f32_sub x (f32_literal m)) (f32_literal s)) in
    (plane m0 s0 t0, plane m1 s1 t1, plane m2 s2 t2).

  (** The four lines every [process_data] applies to its uint8 image. *)
Definition normalize_image (img : img3) : array2 f32pixel :=
    permute_1_2_0 (normalize (permute_2_0_1 (to_unit_float img))).

End Normalize.

(** ** Canvas and resampling helpers *)

(** [np.zeros((h, w, 3), dtype)]. *)
Definition np_zeros {A : Type} (zero : A) (h w : Z) : result (array2 A) :=
  if (h <? 0) || (w <? 0) then Err NegativeDimensions
  else Ok (repeat (repeat zero (Z.to_nat w)) (Z.to_nat h)).

(** Broadcasting along one axis: the length fits, or it is 1. *)
Definition broadcast_axis {A : Type} (n : nat) (l : list A) : option (list A) :=
  if Nat.eqb (length l) n then Some l
  else match l with
       | [x] => Some (repeat x n)
       | _ => None
       end.

Fixpoint broadcast_rows {A : Type} (n : nat) (rows : array2 A) : option (array2 A) :=
  match rows with
  | [] => Some []
  | r :: rows' =>
      match broadcast_axis n r, broadcast_rows n rows' with
      | Some r', Some rows'' => Some (r' :: rows'')
      | _, _ => None
      end
  end.

(** [padded[:new_height, :new_width] = value] for non-negative bounds:
    the slices stop at the canvas, and [value] must broadcast to them. *)
Definition assign_top_left {A : Type} (padded : array2 A) (new_height new_width : Z)
    (value : array2 A) : result (array2 A) :=
  let rh := Nat.min (Z.to_nat new_height) (length padded) in
  let rw := Nat.min (Z.to_nat new_width) (Z.to_nat (width padded)) in
  match broadcast_axis rh value with
  | None => Err BroadcastError
  | Some rows =>
      match broadcast_rows rw rows with
      | None => Err BroadcastError
      | Some rows' =>
          Ok (zip_with (fun v p => v ++ skipn rw p) rows' (firstn rh padded)
              ++ skipn rh padded)
      end
  end.

(** An output of [out_h] rows and [out_w] columns, each element read from
    the input at the indices [zoom_source] names; outside the input the
    fill value. *)
Definition gather `{Externals} {A : Type} (fill : A) (input : array2 A)
    (out_h out_w : nat) : array2 A :=
  let in_h := length input in
  let in_w := Z.to_nat (width input) in
  map (fun i =>
         map (fun j => nth (zoom_source in_w out_w j)
                           (nth (zoom_source in_h out_h i) input []) fill)
             (seq 0 out_w))
      (seq 0 out_h).

(** [scipy.ndimage.zoom(input, zoom, order=0)]: the output shape is
    [int(round(n * z))] along each axis. *)
Definition zoom_order0 `{Externals} (input : array2 Z) (zoom : pyfloat * pyfloat)
    : array2 Z :=
  let out_h := py_round (int_mul_float (height input) (fst zoom)) in
  let out_w := py_round (int_mul_float (width input) (snd zoom)) in
  gather 0 input (Z.to_nat out_h) (Z.to_nat out_w).

(** [s.rsplit('.', 1)[0]]: [s] up to its last dot, all of [s] without one.
    The boolean tells whether a dot was found. *)
Fixpoint rsplit_dot (s : string) : string * bool :=
  match s with
  | EmptyString => (EmptyString, false)
  | String c rest =>
      let '(stem, found) := rsplit_dot rest in
      if found then (String c stem, true)
      else if Ascii.eqb c "."%char then (EmptyString, true)
      else (String c stem, false)
  end.

(** ** TopLeftPad.py *)

Module TopLeftPad.

  (** [_COLOR_TO_INDEX], a dict the code only iterates over: its items in
      insertion order. *)
Definition _COLOR_TO_INDEX : list (Z * Z) :=
    map (fun '(rgb, index) => (encode rgb, index)) color_map.

  (** [indexed_mask[encoded == key] = value]. *)
Definition assign_where (key value : Z) (encoded indexed : array2 Z) : array2 Z :=
    zip_with (zip_with (fun e i => if e =? key then value else i)) encoded indexed.

Definition apply_color_map (mask : img3) : result (array2 Z) :=
    let encoded := map2 encode mask in
    let indexed_mask :=
      fold_left (fun acc '(key, value) => assign_where key value encoded acc)
                _COLOR_TO_INDEX
                (map2 (fun _ => -1) encoded) in
    if existsb (existsb (Z.eqb (-1))) indexed_mask
    then Err UnknownPixelValues
    else Ok (map2 astype_uint8 indexed_mask).

Section WithExternals.
Context `{Externals}.

    (** Lines 87-92. *)
Definition ensure_bgr (image : raw_image) : img3 :=
      match image with
      | Color3 a => a
      | Color4 a => COLOR_BGRA2BGR a
      | Gray a => COLOR_GRAY2BGR a
      end.

    (** Lines 100-107: the pair after the conditional resize, and the
        content dimensions. *)
Definition resize_to_fit (image mask : img3) (desired_size : Z)
        : result (img3 * img3 * (Z * Z)) :=
      let height := height image in
      let width := width image in
      if (desired_size <=? height) || (desired_size <=? width) then
        do scale <- py_truediv desired_size (Z.max height width);
        let new_height := py_round (int_mul_float height scale) in
        let new_width := py_round (int_mul_float width scale) in
        do image' <- cv2_resize image new_width new_height INTER_AREA;
        do mask' <- cv2_resize mask new_width new_height INTER_NEAREST;
        Ok (image', mask', (new_height, new_width))
      else Ok (image, mask, (height, width)).

Definition process_data (filename : string) (image : option raw_image)
        (mask : option img3) (img_size : Z)
        : result (list (array2 f32pixel) * list (array2 Z)) :=
      match image, mask with
      | Some image, Some mask =>
          let image := ensure_bgr image in
          let desired_size := img_size in
          do fitted <- resize_to_fit image mask desired_size;
          let '(image, mask, (new_height, new_width)) := fitted in
          do canvas_image <- np_zeros (0, 0, 0) desired_size desired_size;
          do canvas_mask <- np_zeros (0, 0, 0) desired_size desired_size;
          do padded_image <- assign_top_left canvas_image new_height new_width image;
          do padded_mask <- assign_top_left canvas_mask new_height new_width mask;
          let processed_image := normalize_image padded_image in
          do processed_mask <- apply_color_map padded_mask;
          Ok ([processed_image], [processed_mask])
      | _, _ => Err (FileNotFoundError ("Failed to load image or mask: " ++ filename))
      end.

End WithExternals.

End TopLeftPad.

(** ** IWFullSceneDataset.py *)

Module IWFullSceneDataset.

Definition apply_color_map (mask : img3) : result (array2 Z) :=
    let mask_encoded := map2 encode mask in
    do indexed_mask <- vectorize_get mask_encoded;
    if existsb (existsb is_None_b) indexed_mask
    then Err UnknownPixelValues
    else Ok (map2 (fun o => astype_uint8 (index_or_zero o)) indexed_mask).

Section WithExternals.
Context `{Externals}.

    (** Lines 79-82: [image.shape[-1]] of a two-dimensional array is its
        width, so a grayscale image 4 pixels wide takes the first branch
        and is handed to [COLOR_BGRA2BGR]. *)
Definition ensure_bgr (image : raw_image) : result img3 :=
      match image with
      | Color3 a => Ok a
      | Color4 a => Ok (COLOR_BGRA2BGR a)
      | Gray a =>
          if width a =? 4 then bgra2bgr_of_gray a
          else Ok (COLOR_GRAY2BGR a)
      end.

    (** Lines 93-109, the body of the two loops. *)
Definition tile (image mask : img3) (img_size row col : Z)
        : result (array2 f32pixel * array2 Z) :=
      let cropped_image := crop row col img_size image in
      let cropped_mask := crop row col img_size mask in
      do processed_mask <- apply_color_map cropped_mask;
      Ok (normalize_image cropped_image, processed_mask).

    (** Lines 84-109. *)
Definition crop_tiles (filename : string) (image mask : img3) (img_size : Z)
        : generated (array2 f32pixel * array2 Z) :=
      let height := height image in
      let width := width image in
      let step_size := img_size / 2 in
      if (height <? img_size) || (width <? img_size)
      then gen_raise (ImageSmallerThanCrop filename img_size)
      else
        match py_range 0 (height - img_size + 1) step_size with
        | Err e => gen_raise e
        | Ok rows =>
            gen_for rows (fun row =>
              match py_range 0 (width - img_size + 1) step_size with
              | Err e => gen_raise e
              | Ok cols =>
                  gen_for cols (fun col => gen_yield (tile image mask img_size row col))
              end)
        end.

Definition process_data (filename : string) (image : option raw_image)
        (mask : option img3) (img_size : Z)
        : generated (array2 f32pixel * array2 Z) :=
      match image, mask with
      | Some image, Some mask =>
          match ensure_bgr image with
          | Err e => gen_raise e
          | Ok image => crop_tiles filename image mask img_size
          end
      | _, _ => gen_raise (FileNotFoundError ("Failed to load image or mask: " ++ filename))
      end.

End WithExternals.

End IWFullSceneDataset.

(** ** iw_dataset.py *)

Module IWDataset.

  (** Lines 113-136, the decoding written out inside [process_data]. *)
Definition decode_mask (mask_path : string) (mask : img3) : result (array2 Z) :=
    let mask_encoded := map2 encode mask in
    do indexed_mask <- vectorize_get mask_encoded;
    if existsb (existsb is_None_b) indexed_mask
    then Err (UnknownColors mask_path
                (np_unique (problem_values mask_encoded indexed_mask)))
    else Ok (map2 (fun o => astype_uint8 (index_or_zero o)) indexed_mask).

Section WithExternals.
Context `{Externals}.

    (** Lines 108-111. *)
Definition binarize (mask : img3) : img3 :=
      let mask_gray := map2 rgb2gray mask in
      let bin_mask := THRESH_BINARY 128 255 mask_gray in
      merge3 bin_mask.

    (** Lines 105-140, from the mask as read to the mask yielded. *)
Definition process_mask (mask_path : string) (mask : img3) (img_size : Z)
        : result (array2 Z) :=
      let mask := COLOR_BGR2RGB mask in
      let mask := binarize mask in
      do processed_mask <- decode_mask mask_path mask;
      do zoom_h <- py_truediv img_size (height processed_mask);
      do zoom_w <- py_truediv img_size (width processed_mask);
      Ok (zoom_order0 processed_mask (zoom_h, zoom_w)).

    (** Lines 88-94: torch's [permute(2, 0, 1)] needs three axes and
        [Normalize] three channels. *)
Definition process_image (image : raw_image) (img_size : Z)
        : result (array2 f32pixel) :=
      match image with
      | Color3 a =>
          do resized <- cv2_resize a img_size img_size INTER_LINEAR;
          Ok (normalize_image resized)
      | Gray a =>
          if size0 a || (img_size <=? 0) then Err (CvError "resize")
          else Err (TorchError "permute: number of dims")
      | Color4 a =>
          if size0 a || (img_size <=? 0) then Err (CvError "resize")
          else Err (TorchError "normalize: channel mismatch")
      end.

Definition process_data (filename images_dir masks_dir : string)
        (image : option raw_image) (mask_exists : bool) (mask : option img3)
        (img_size : Z) : generated (array2 f32pixel * array2 Z) :=
      gen_yield
        (let image_path := os_path_join images_dir filename in
         match image with
         | None => Err (FileNotFoundError ("Image file not found: " ++ image_path))
         | Some image =>
             do processed_image <- process_image image img_size;
             let mask_filename := (fst (rsplit_dot filename) ++ ".png")%string in
             let mask_path := os_path_join masks_dir mask_filename in
             if negb mask_exists
             then Err (FileNotFoundError ("Mask file not found: " ++ mask_path))
             else
               match mask with
               | None => Err (FileNotFoundError ("Failed to read mask: " ++ mask_path))
               | Some mask =>
                   do processed_mask <- process_mask mask_path mask img_size;
                   Ok (processed_image, processed_mask)
               end
         end).

    (** The sequence the specification gives for the mask: binarize,
        re-expand to three channels, resize to S x S by nearest neighbour,
        then decode the colours. *)
Definition reference_mask_pipeline (mask_path : string) (mask : img3)
        (img_size : Z) : result (array2 Z) :=
      let mask := COLOR_BGR2RGB mask in
      let mask := binarize mask in
      let resized := gather (0, 0, 0) mask (Z.to_nat img_size) (Z.to_nat img_size) in
      decode_mask mask_path resized.

End WithExternals.

End IWDataset.

(** ** The in-memory view of the three classes

    [__init__], [__len__] and [__getitem__] are the same lines in
    [iw_dataset.py] (29-58), [IWFullSceneDataset.py] (26-53) and
    [TopLeftPad.py] (30-57). *)

Module Dataset.

(** [arr[idx]] on the first axis of a NumPy array: a negative index counts
    from the end, and an index outside [-n, n) raises IndexError ([None]). *)
Definition np_index {A : Type} (arr : list A) (idx : Z) : option A :=
  let n := Z.of_nat (length arr) in
  if (idx <? - n) || (n <=? idx) then None
  else nth_error arr (Z.to_nat (if idx <? 0 then idx + n else idx)).

Section WithExternals.
Context `{Externals}.

Record dataset : Type := {
  images : list (array2 f32pixel);
  masks : list (array2 Z);
  num_samples : Z
}.

(** [data['images']] and [data['masks']] are the two arguments. *)
Definition __init__ (data_images : list (array2 f32pixel)) (data_masks : list (array2 Z))
    : dataset :=
  {| images := data_images;
     masks := data_masks;
     num_samples := Z.of_nat (length data_images) |}.

Definition __len__ (self : dataset) : Z := num_samples self.

(** [.float()] on a float32 tensor and [.long()] on a uint8 one keep the
    values. *)
Definition __getitem__ (self : dataset) (idx : Z) : option (tensor3 * array2 Z) :=
  match np_index (images self) idx with
  | None => None
  | Some image =>
      match np_index (masks self) idx with
      | None => None
      | Some mask => Some (permute_2_0_1 image, mask)
      end
  end.

End WithExternals.

End Dataset.

(** ** What is assumed of the libraries *)

(** Python's [round] on a float: to the nearest integer, ties to even. *)
Definition round_half_even (q : Q) : Z :=
  let f := Qfloor q in
  match Qcompare (q - inject_Z f) (1 # 2) with
  | Lt => f
  | Gt => f + 1
  | Eq => if Z.even f then f else f + 1
  end.

(** The unit roundoff of binary64. *)
Definition unit_roundoff : Q := 1 # (2 ^ 53).

(** The standard model of binary64 arithmetic on the range the code uses
    (array dimensions are 32-bit in OpenCV), and the shape contract of
    [cv2.resize]. *)
Class ExternalsLaws (E : Externals) : Type := {
  py_val : pyfloat -> Q;
  int_truediv_accurate : forall a b : Z,
    0 < a < 2 ^ 31 -> 0 < b < 2 ^ 31 ->
    (Qabs (py_val (int_truediv a b) - inject_Z a / inject_Z b)
     <= unit_roundoff * (inject_Z a / inject_Z b))%Q;
  int_mul_float_accurate : forall (n : Z) (x : pyfloat),
    0 < n < 2 ^ 31 ->
    (1 # (2 ^ 64) <= py_val x)%Q -> (py_val x <= inject_Z (2 ^ 64))%Q ->
    (Qabs (py_val (int_mul_float n x) - inject_Z n * py_val x)
     <= unit_roundoff * (inject_Z n * py_val x))%Q;
  py_round_nearest : forall x : pyfloat,
    py_round x = round_half_even (py_val x);
  interpolate_shape : forall interp src h w,
    has_shape (interpolate interp src h w) h w;
  nearest_picks : forall src sh sw h w p,
    has_shape src sh sw -> (0 < sh)%nat -> (0 < sw)%nat ->
    In p (concat (interpolate INTER_NEAREST src h w)) -> In p (concat src)
}.

(** A stand-in for the libraries, to run the definitions on concrete
    inputs: exact rational arithmetic in place of float32 and binary64,
    nearest-neighbour sampling in place of every interpolation kernel, a
    fixed-point luminance.  It satisfies the laws above; it is not claimed
    to return what OpenCV, SciPy or torch return on every input. *)
Definition nearest_sample (src : img3) (h w : nat) : img3 :=
  let sh := length src in
  let sw := Z.to_nat (width src) in
  map (fun i =>
         map (fun j => nth (j * sw / w)%nat (nth (i * sh / h)%nat src []) (0, 0, 0))
             (seq 0 w))
      (seq 0 h).

(** OpenCV's 8-bit luminance: fixed point, 14 fractional bits. *)
Definition cv_rgb2gray (p : pixel) : Z :=
  let '(r, g, b) := p in
  (r * 4899 + g * 9617 + b * 1868 + 8192) / 16384.

(** [scipy.ndimage.zoom(order=0)] reads the input at the coordinate
    [i * (n_in - 1) / (n_out - 1)] rounded to the nearest index, halves up. *)
Definition zoom_nearest_index (n_in n_out i : nat) : nat :=
  ((2 * i * (n_in - 1) + (n_out - 1)) / (2 * (n_out - 1)))%nat.

(** [posixpath.join(a, b)]. *)
Definition starts_with_slash (s : string) : bool :=
  match s with
  | String c _ => Ascii.eqb c "/"%char
  | EmptyString => false
  end.

Fixpoint ends_with_slash (s : string) : bool :=
  match s with
  | EmptyString => false
  | String c EmptyString => Ascii.eqb c "/"%char
  | String _ rest => ends_with_slash rest
  end.

Definition posixpath_join (a b : string) : string :=
  if starts_with_slash b then b
  else match a with
       | EmptyString => b
       | _ => if ends_with_slash a then (a ++ b)%string
              else (a ++ "/" ++ b)%string
       end.

#[export] Instance exact_externals : Externals := {|
  float32 := Q;
  astype_float32 := inject_Z;
  f32_literal := fun q => q;
  f32_sub := Qminus;
  f32_div := Qdiv;
  pyfloat := Q;
  int_truediv := fun a b => (inject_Z a / inject_Z b)%Q;
  int_mul_float := fun n x => (inject_Z n * x)%Q;
  py_round := round_half_even;
  interpolate := fun _ => nearest_sample;
  rgb2gray := cv_rgb2gray;
  bgra2bgr_of_gray := fun a => Ok (COLOR_GRAY2BGR a);
  zoom_source := zoom_nearest_index;
  os_path_join := posixpath_join
|}.

(** ** Vocabulary of the statements *)

(** A packed colour is a key of the colour map. *)
Definition known_b (e : Z) : bool := existsb (Z.eqb e) color_keys_encoded.

Definition all_known_b (mask : img3) : bool :=
  forallb (forallb (fun p => known_b (encode p))) mask.

(** The packed colours of the mask that are no key, in row-major order. *)
Definition unknown_values (mask : img3) : list Z :=
  List.filter (fun e => negb (known_b e)) (concat (map2 encode mask)).

Definition first_known_b (mask : img3) : bool :=
  match concat mask with
  | p :: _ => known_b (encode p)
  | [] => false
  end.


(** The class index the colour map gives a pixel of a known colour. *)
Definition color_class (p : pixel) : Z :=
  astype_uint8 (index_or_zero (color_to_index !! encode p)).


(** Binarisation as the specification words it, at one mask: grayscale
    128 and above is foreground, below 128 background. *)
Definition foreground_from_128 `{Externals} (mask_path : string) (mask : img3) : Prop :=
  exists out,
    IWDataset.decode_mask mask_path (IWDataset.binarize mask) = Ok out
    /\ Forall2 (Forall2 (fun p o =>
                           (128 <= rgb2gray p -> o = 1)
                           /\ (rgb2gray p < 128 -> o = 0))) mask out.


(** One pixel after [astype(float32) / 255.0] and [Normalize]: channel [c]
    becomes [(v / 255 - mean_c) / std_c], in float32 arithmetic. *)
Definition normalize_channel `{Externals} (m s : Q) (v : Z) : float32 :=
  f32_div (f32_sub (f32_div (astype_float32 v) (f32_literal (255 # 1)))
                   (f32_literal m))
          (f32_literal s).

Definition normalize_pixel `{Externals} (p : pixel) : f32pixel :=
  let '(c0, c1, c2) := p in
  (normalize_channel (485 # 1000) (229 # 1000) c0,
   normalize_channel (456 # 1000) (224 # 1000) c1,
   normalize_channel (406 # 1000) (225 # 1000) c2).

(** The tile origins of an H x W scene, row by row. *)
Definition tile_origins (H W S : Z) : list (Z * Z) :=
  flat_map (fun row => map (pair row) (range_items 0 (W - S + 1) (S / 2)))
           (range_items 0 (H - S + 1) (S / 2)).

(** The sample the tiling yields at one origin when its mask decodes. *)
Definition tile_at `{Externals} (image mask : img3) (S : Z) (origin : Z * Z)
    : array2 f32pixel * array2 Z :=
  (map2 normalize_pixel (crop (fst origin) (snd origin) S image),
   map2 color_class (crop (fst origin) (snd origin) S mask)).

(** The longest prefix whose elements satisfy [ok], and what follows it. *)
Fixpoint take_while {A : Type} (ok : A -> bool) (l : list A) : list A :=
  match l with
  | [] => []
  | x :: l' => if ok x then x :: take_while ok l' else []
  end.

Fixpoint drop_while {A : Type} (ok : A -> bool) (l : list A) : list A :=
  match l with
  | [] => []
  | x :: l' => if ok x then drop_while ok l' else l
  end.

(** The mask crop at a tile origin decodes. *)
Definition tile_decodes (mask : img3) (S : Z) (origin : Z * Z) : bool :=
  all_known_b (crop (fst origin) (snd origin) S mask).

(** The exception a mask crop with an unknown colour ends the tiling with. *)
Definition tile_error (mask : img3) (S : Z) (origin : Z * Z) : error :=
  if first_known_b (crop (fst origin) (snd origin) S mask)
  then NoneToInt else UnknownPixelValues.

(** An array in the top-left corner of an [n] x [n] canvas of [fill]. *)
Definition pad_top_left {A : Type} (fill : A) (n : nat) (a : array2 A) : array2 A :=
  map (fun r => r ++ repeat fill (n - length r)) a
  ++ repeat (repeat fill n) (n - length a).

(** The string holds no dot. *)
Fixpoint no_dot (s : string) : bool :=
  match s with
  | EmptyString => true
  | String c rest => negb (Ascii.eqb c "."%char) && no_dot rest
  end.

(** Plane [c] of a channel-first tensor. *)
Definition channel_plane `{Externals} (m s : Q) (c : pixel -> Z) (img : img3)
    : array2 float32 :=
  map2 (fun p => normalize_channel m s (c p)) img.

(** The channels of a pixel of a uint8 array. *)
Definition uint8_pixel (p : pixel) : Prop :=
  let '(c0, c1, c2) := p in
  0 <= c0 < 256 /\ 0 <= c1 < 256 /\ 0 <= c2 < 256.

Definition black_or_white (p : pixel) : Prop :=
  p = (0, 0, 0) \/ p = (255, 255, 255).

(** The relative error two roundings of binary64 can add up to, rounded up. *)
Definition eps : Q := 1 # (2 ^ 51).

(** The class ResizeCrop gives a mask pixel as read by [cv2.imread] (BGR):
    1 when its luminance is above 128, 0 otherwise. *)
Definition luminance_class `{Externals} (p : pixel) : Z :=
  let '(b, g, r) := p in
  if 128 <? rgb2gray (r, g, b) then 1 else 0.

(** * Lists and arrays *)

Lemma zip_with_map_same {A B C D : Type} (h : B -> C -> D) (f : A -> B) (g : A -> C)
    (l : list A) :
  zip_with h (map f l) (map g l) = map (fun x => h (f x) (g x)) l.
Proof.
  induction l as [|x l IH]; simpl; [reflexivity|]. now rewrite IH.
Qed.

Lemma map2_map2 {A B C : Type} (f : A -> B) (g : B -> C) (a : array2 A) :
  map2 g (map2 f a) = map2 (fun x => g (f x)) a.
Proof.
  unfold map2. rewrite map_map. apply map_ext. intros r. apply map_map.
Qed.

Lemma map2_ext_in {A B : Type} (f g : A -> B) (a : array2 A) :
  (forall x, In x (concat a) -> f x = g x) -> map2 f a = map2 g a.
Proof.
  intros Hfg. unfold map2. apply map_ext_in. intros r Hr.
  apply map_ext_in. intros x Hx. apply Hfg. apply in_concat. eauto.
Qed.

Lemma concat_map2 {A B : Type} (f : A -> B) (a : array2 A) :
  concat (map2 f a) = map f (concat a).
Proof. unfold map2. now rewrite concat_map. Qed.

Lemma size0_map2 {A B : Type} (f : A -> B) (a : array2 A) :
  size0 (map2 f a) = size0 a.
Proof.
  unfold size0. rewrite concat_map2. now destruct (concat a).
Qed.

Lemma forallb_map2 {A B : Type} (f : A -> B) (P : B -> bool) (a : array2 A) :
  forallb (forallb P) (map2 f a) = forallb (forallb (fun x => P (f x))) a.
Proof.
  induction a as [|r a IH]; simpl; [reflexivity|]. rewrite IH. f_equal.
  induction r as [|x r IHr]; simpl; [reflexivity|]. now rewrite IHr.
Qed.

Lemma existsb_negb_forallb {A : Type} (P : A -> bool) (l : list A) :
  existsb (fun x => negb (P x)) l = negb (forallb P l).
Proof.
  induction l as [|x l IH]; simpl; [reflexivity|].
  rewrite IH. now destruct (P x), (forallb P l).
Qed.

Lemma existsb2_negb_forallb2 {A : Type} (P : A -> bool) (a : array2 A) :
  existsb (existsb (fun x => negb (P x))) a = negb (forallb (forallb P) a).
Proof.
  induction a as [|r a IH]; simpl; [reflexivity|].
  rewrite IH, existsb_negb_forallb. now destruct (forallb P r), (forallb (forallb P) a).
Qed.

Lemma existsb_map2 {A B : Type} (f : A -> B) (P : B -> bool) (a : array2 A) :
  existsb (existsb P) (map2 f a) = existsb (existsb (fun x => P (f x))) a.
Proof.
  induction a as [|r a IH]; simpl; [reflexivity|]. rewrite IH. f_equal.
  induction r as [|x r IHr]; simpl; [reflexivity|]. now rewrite IHr.
Qed.

Lemma existsb2_ext {A : Type} (P Q : A -> bool) (a : array2 A) :
  (forall x, P x = Q x) -> existsb (existsb P) a = existsb (existsb Q) a.
Proof.
  intros HPQ. induction a as [|r a IH]; simpl; [reflexivity|].
  rewrite IH. f_equal. induction r as [|x r IHr]; simpl; [reflexivity|].
  now rewrite IHr, HPQ.
Qed.

Lemma forallb2_forall {A : Type} (P : A -> bool) (a : array2 A) :
  forallb (forallb P) a = true <-> forall x, In x (concat a) -> P x = true.
Proof.
  split.
  - intros Hall x Hx. apply in_concat in Hx as (r & Hr & Hx).
    rewrite forallb_forall in Hall. specialize (Hall r Hr).
    rewrite forallb_forall in Hall. now apply Hall.
  - intros Hall. apply forallb_forall. intros r Hr. apply forallb_forall.
    intros x Hx. apply Hall. apply in_concat. eauto.
Qed.


(** * The colour codec *)

Lemma color_keys_encoded_eq : color_keys_encoded = [0; 16777215].
Proof. reflexivity. Qed.

Lemma known_b_spec (e : Z) :
  known_b e = (e =? 0) || (e =? 16777215).
Proof.
  unfold known_b. rewrite color_keys_encoded_eq. simpl. now rewrite orb_false_r.
Qed.

Lemma lookup_color_to_index (e : Z) :
  color_to_index !! e =
  if e =? 16777215 then Some 1 else if e =? 0 then Some 0 else None.
Proof.
  change color_to_index with (<[16777215 := 1]> (<[0 := 0]> (∅ : gmap Z Z))).
  destruct (Z.eqb_spec e 16777215) as [->|Hne1].
  - apply lookup_insert_eq.
  - rewrite lookup_insert_ne by congruence.
    destruct (Z.eqb_spec e 0) as [->|Hne0].
    + apply lookup_insert_eq.
    + rewrite lookup_insert_ne by congruence. apply lookup_empty.
Qed.

Lemma known_b_lookup (e : Z) :
  known_b e = bool_decide (is_Some (color_to_index !! e)).
Proof.
  rewrite known_b_spec, lookup_color_to_index.
  destruct (Z.eqb_spec e 16777215) as [->|?]; [reflexivity|].
  destruct (Z.eqb_spec e 0) as [->|?]; [reflexivity|].
  reflexivity.
Qed.

Lemma known_b_is_None (e : Z) :
  is_None_b (color_to_index !! e) = negb (known_b e).
Proof.
  rewrite known_b_spec, lookup_color_to_index.
  destruct (e =? 16777215), (e =? 0); reflexivity.
Qed.


(** ** [np.unique] *)







(** ** The three decoders *)

Lemma all_known_b_forall (mask : img3) :
  all_known_b mask = true <-> forall p, In p (concat mask) -> known_b (encode p) = true.
Proof. apply forallb2_forall. Qed.


Lemma TopLeftPad_indexed_mask (mask : img3) :
  fold_left (fun acc '(key, value) =>
               TopLeftPad.assign_where key value (map2 encode mask) acc)
            TopLeftPad._COLOR_TO_INDEX
            (map2 (fun _ => -1) (map2 encode mask))
  = map2 (fun p => if encode p =? 16777215 then 1
                   else if encode p =? 0 then 0 else -1) mask.
Proof.
  change TopLeftPad._COLOR_TO_INDEX with [(0, 0); (16777215, 1)].
  simpl. unfold TopLeftPad.assign_where, map2.
  rewrite !map_map.
  rewrite zip_with_map_same. rewrite zip_with_map_same.
  apply map_ext. intros r.
  rewrite !map_map, zip_with_map_same, zip_with_map_same.
  apply map_ext. intros p. reflexivity.
Qed.

Lemma TopLeftPad_apply_color_map_eq (mask : img3) :
  TopLeftPad.apply_color_map mask =
  if all_known_b mask then Ok (map2 color_class mask) else Err UnknownPixelValues.
Proof.
  unfold TopLeftPad.apply_color_map. rewrite TopLeftPad_indexed_mask.
  rewrite existsb_map2.
  rewrite existsb2_ext with (Q := fun p => negb (known_b (encode p))).
  2:{ intros p. rewrite known_b_spec.
      destruct (encode p =? 16777215), (encode p =? 0); reflexivity. }
  rewrite existsb2_negb_forallb2. fold (all_known_b mask).
  destruct (all_known_b mask) eqn:Hall; simpl; [|reflexivity].
  f_equal. rewrite map2_map2. apply map2_ext_in. intros p Hp.
  unfold color_class. rewrite lookup_color_to_index.
  destruct (encode p =? 16777215) eqn:H1; [reflexivity|].
  destruct (encode p =? 0) eqn:H0; [reflexivity|].
  rewrite all_known_b_forall in Hall. specialize (Hall p Hp).
  rewrite known_b_spec, H0, H1 in Hall. discriminate.
Qed.

Lemma first_known_all_known (mask : img3) :
  all_known_b mask = true -> size0 mask = false -> first_known_b mask = true.
Proof.
  intros Hall Hsz. unfold first_known_b, size0 in *.
  destruct (concat mask) as [|p l] eqn:Hc; [discriminate|].
  rewrite all_known_b_forall in Hall. apply Hall. rewrite Hc. now left.
Qed.

Lemma vectorize_get_eq (mask : img3) :
  vectorize_get (map2 encode mask) =
  if size0 mask then Err VectorizeSizeZero
  else if all_known_b mask || negb (first_known_b mask)
       then Ok (map2 (fun p => color_to_index !! encode p) mask)
       else Err NoneToInt.
Proof.
  unfold vectorize_get. rewrite concat_map2.
  pose proof (first_known_all_known mask) as Hfirst.
  unfold size0, first_known_b in *.
  destruct (concat mask) as [|p l] eqn:Hc; simpl; [reflexivity|].
  rewrite map2_map2, forallb_map2.
  assert (Hall : forallb (forallb (fun x => bool_decide (is_Some (color_to_index !! encode x)))) mask
                 = all_known_b mask).
  { unfold all_known_b. clear. induction mask as [|r a IH]; simpl; [reflexivity|].
    rewrite IH. f_equal. induction r as [|x r IHr]; simpl; [reflexivity|].
    now rewrite IHr, known_b_lookup. }
  rewrite Hall. rewrite (known_b_lookup (encode p)).
  destruct (color_to_index !! encode p) eqn:Hp; simpl.
  - rewrite orb_false_r. reflexivity.
  - destruct (all_known_b mask); [|reflexivity].
    specialize (Hfirst eq_refl eq_refl).
    rewrite known_b_lookup, Hp in Hfirst. discriminate.
Qed.

Lemma existsb_None_outputs (mask : img3) :
  existsb (existsb is_None_b) (map2 (fun p => color_to_index !! encode p) mask)
  = negb (all_known_b mask).
Proof.
  rewrite existsb_map2.
  rewrite existsb2_ext with (Q := fun p => negb (known_b (encode p))).
  - apply existsb2_negb_forallb2.
  - intros p. apply known_b_is_None.
Qed.

Lemma decoded_outputs (mask : img3) :
  map2 (fun o => astype_uint8 (index_or_zero o))
       (map2 (fun p => color_to_index !! encode p) mask)
  = map2 color_class mask.
Proof. now rewrite map2_map2. Qed.

Lemma problem_values_eq (mask : img3) :
  problem_values (map2 encode mask) (map2 (fun p => color_to_index !! encode p) mask)
  = unknown_values mask.
Proof.
  unfold problem_values, unknown_values. rewrite !concat_map2.
  induction (concat mask) as [|p l IH]; simpl; [reflexivity|].
  rewrite known_b_is_None. destruct (known_b (encode p)); simpl; now rewrite IH.
Qed.

Lemma IWDataset_decode_mask_eq (mask_path : string) (mask : img3) :
  IWDataset.decode_mask mask_path mask =
  if size0 mask then Err VectorizeSizeZero
  else if all_known_b mask then Ok (map2 color_class mask)
  else if first_known_b mask then Err NoneToInt
  else Err (UnknownColors mask_path (np_unique (unknown_values mask))).
Proof.
  unfold IWDataset.decode_mask. rewrite vectorize_get_eq.
  destruct (size0 mask); [reflexivity|].
  destruct (all_known_b mask) eqn:Hall; simpl.
  - rewrite existsb_None_outputs, Hall. simpl. now rewrite decoded_outputs.
  - destruct (first_known_b mask); simpl; [reflexivity|].
    rewrite existsb_None_outputs, Hall. simpl. now rewrite problem_values_eq.
Qed.

Lemma IWFullSceneDataset_apply_color_map_eq (mask : img3) :
  IWFullSceneDataset.apply_color_map mask =
  if size0 mask then Err VectorizeSizeZero
  else if all_known_b mask then Ok (map2 color_class mask)
  else if first_known_b mask then Err NoneToInt
  else Err UnknownPixelValues.
Proof.
  unfold IWFullSceneDataset.apply_color_map. rewrite vectorize_get_eq.
  destruct (size0 mask); [reflexivity|].
  destruct (all_known_b mask) eqn:Hall; simpl.
  - rewrite existsb_None_outputs, Hall. simpl. now rewrite decoded_outputs.
  - destruct (first_known_b mask); simpl; [reflexivity|].
    rewrite existsb_None_outputs, Hall. reflexivity.
Qed.




(** * ResizeCrop: the mask *)

Section ResizeCropMask.
Context `{E : Externals}.

Lemma binarize_eq (mask : img3) :
    IWDataset.binarize mask =
    map2 (fun p => if 128 <? rgb2gray p then (255, 255, 255) else (0, 0, 0)) mask.
  Proof.
    unfold IWDataset.binarize, merge3, THRESH_BINARY.
    rewrite !map2_map2. apply map2_ext_in. intros p _.
    now destruct (128 <? rgb2gray p).
  Qed.

Lemma size0_binarize (mask : img3) :
    size0 (IWDataset.binarize mask) = size0 mask.
  Proof. rewrite binarize_eq. apply size0_map2. Qed.

Lemma all_known_binarize (mask : img3) :
    all_known_b (IWDataset.binarize mask) = true.
  Proof.
    rewrite binarize_eq. unfold all_known_b. rewrite forallb_map2.
    apply forallb2_forall. intros p _. now destruct (128 <? rgb2gray p).
  Qed.

Lemma color_class_binarize (mask : img3) :
    map2 color_class (IWDataset.binarize mask) =
    map2 (fun p => if 128 <? rgb2gray p then 1 else 0) mask.
  Proof.
    rewrite binarize_eq, map2_map2. apply map2_ext_in. intros p _.
    now destruct (128 <? rgb2gray p).
  Qed.

Lemma decode_binarize (mask_path : string) (mask : img3) :
    IWDataset.decode_mask mask_path (IWDataset.binarize mask) =
    if size0 mask then Err VectorizeSizeZero
    else Ok (map2 (fun p => if 128 <? rgb2gray p then 1 else 0) mask).
  Proof.
    rewrite IWDataset_decode_mask_eq, size0_binarize, all_known_binarize.
    now rewrite color_class_binarize.
  Qed.

Lemma size0_COLOR_BGR2RGB (mask : img3) : size0 (COLOR_BGR2RGB mask) = size0 mask.
  Proof. apply size0_map2. Qed.

Lemma size0_false_dims {A : Type} (a : array2 A) :
    has_shape a (length a) (Z.to_nat (width a)) ->
    size0 a = false -> 0 < height a /\ 0 < width a.
  Proof.
    unfold size0, height, width. intros [_ Hrows] Hsz.
    destruct a as [|r a]; [discriminate|].
    split; [simpl; lia|].
    destruct r as [|x r]; [|simpl; lia].
    exfalso. simpl in Hsz, Hrows.
    assert (Hnil : concat a = []).
    { apply Forall_inv_tail in Hrows. clear Hsz.
      induction a as [|r' a IH]; [reflexivity|]. simpl.
      pose proof (Forall_inv Hrows) as Hr'. destruct r'; [|discriminate].
      apply IH. now apply Forall_inv_tail in Hrows. }
    now rewrite Hnil in Hsz.
  Qed.

End ResizeCropMask.

(** C5, as amended.  After the binarize step a mask pixel decodes as
    foreground (index 1) exactly when its grayscale value is above 128,
    and as background (index 0) when it is 128 or below, whatever its
    colour: [cv2.threshold] with [THRESH_BINARY] compares strictly. *)
Theorem binarize_then_decode `{E : Externals} (mask_path : string) (mask : img3) :
  IWDataset.decode_mask mask_path (IWDataset.binarize mask) =
  if size0 mask then Err VectorizeSizeZero
  else Ok (map2 (fun p => if 128 <? rgb2gray p then 1 else 0) mask).
Proof. apply decode_binarize. Qed.

(** C5 as stated fails at grayscale 128: the mid-gray pixel
    (128, 128, 128) has grayscale value 128 and decodes as background. *)
Lemma gray_128_is_background :
  ~ foreground_from_128 (H := exact_externals) "masks/a.png" [[(128, 128, 128)]].
Proof.
  unfold foreground_from_128. intros (out & Hdec & Hall).
  rewrite decode_binarize in Hdec. simpl in Hdec. injection Hdec as <-.
  inversion Hall as [|? ? ? ? Hrow _]; subst.
  inversion Hrow as [|? ? ? ? [Hfg _] _]; subst.
  vm_compute in Hfg. specialize (Hfg ltac:(discriminate)). discriminate Hfg.
Qed.

(** C9.  Whatever the raw mask holds, every pixel of the binarized mask
    packs to 0x000000 or 0xFFFFFF, both keys of the colour map; decoding
    it succeeds on every non-empty mask, so [process_data] of ResizeCrop
    never ends in an unknown-colour error. *)
Theorem resize_crop_never_unknown_colour `{E : Externals}
    (filename images_dir masks_dir : string) (image : option raw_image)
    (mask_exists : bool) (mask : img3) (img_size : Z) :
  let binary := IWDataset.binarize (COLOR_BGR2RGB mask) in
  Forall (Forall (fun p => (encode p = 0 \/ encode p = 16777215)
                           /\ In (encode p) color_keys_encoded)) binary
  /\ (forall mask_path,
        IWDataset.decode_mask mask_path binary =
        if size0 mask then Err VectorizeSizeZero else Ok (map2 color_class binary))
  /\ (forall mask_path values,
        raised (IWDataset.process_data filename images_dir masks_dir image
                  mask_exists (Some mask) img_size)
        <> Some (UnknownColors mask_path values))
  /\ raised (IWDataset.process_data filename images_dir masks_dir image
               mask_exists (Some mask) img_size) <> Some NoneToInt
  /\ raised (IWDataset.process_data filename images_dir masks_dir image
               mask_exists (Some mask) img_size) <> Some UnknownPixelValues.
Proof.
  intros binary.
  assert (Hdec : forall mask_path,
             IWDataset.decode_mask mask_path binary =
             if size0 mask then Err VectorizeSizeZero else Ok (map2 color_class binary)).
  { intros mask_path. unfold binary.
    rewrite IWDataset_decode_mask_eq, size0_binarize, size0_COLOR_BGR2RGB.
    now rewrite all_known_binarize. }
  split.
  { unfold binary. rewrite binarize_eq. unfold map2.
    apply List.Forall_forall. intros r Hr. apply in_map_iff in Hr as (r0 & <- & _).
    apply List.Forall_forall. intros p Hp. apply in_map_iff in Hp as (p0 & <- & _).
    destruct (128 <? rgb2gray p0); simpl; intuition. }
  split; [exact Hdec|].
  assert (Hraised : forall e,
             raised (IWDataset.process_data filename images_dir masks_dir image
                       mask_exists (Some mask) img_size) = Some e ->
             (forall p v, e <> UnknownColors p v) /\ e <> NoneToInt
             /\ e <> UnknownPixelValues).
  { intros e. unfold IWDataset.process_data.
    destruct image as [image|]; simpl; [|intros [= <-]; repeat split; discriminate].
    assert (Himg : forall r, IWDataset.process_image image img_size = Err r ->
                     (forall p v, r <> UnknownColors p v) /\ r <> NoneToInt
                     /\ r <> UnknownPixelValues).
    { intros r. unfold IWDataset.process_image, cv2_resize.
      destruct image as [a|a|a]; simpl.
      - destruct (size0 a || (img_size <=? 0)); intros [= <-]; repeat split; discriminate.
      - destruct (size0 a); simpl; [intros [= <-]; repeat split; discriminate|].
        destruct ((img_size <=? 0) || (img_size <=? 0)); simpl;
          [intros [= <-]; repeat split; discriminate|discriminate].
      - destruct (size0 a || (img_size <=? 0)); intros [= <-]; repeat split; discriminate. }
    destruct (IWDataset.process_image image img_size) as [pi|r] eqn:Hpi; simpl;
      [|intros [= <-]; now apply Himg].
    destruct mask_exists; simpl; [|intros [= <-]; repeat split; discriminate].
    unfold IWDataset.process_mask. fold binary. rewrite Hdec.
    destruct (size0 mask); simpl; [intros [= <-]; repeat split; discriminate|].
    unfold py_truediv.
    destruct (height (map2 color_class binary) =? 0); simpl;
      [intros [= <-]; repeat split; discriminate|].
    destruct (width (map2 color_class binary) =? 0); simpl;
      [intros [= <-]; repeat split; discriminate|discriminate]. }
  repeat split.
  - intros mask_path values Heq. apply Hraised in Heq as (H1 & _). now apply (H1 mask_path values).
  - intros Heq. apply Hraised in Heq as (_ & H2 & _). now apply H2.
  - intros Heq. apply Hraised in Heq as (_ & _ & H3). now apply H3.
Qed.

(** * Normalisation *)

Section NormalizeFacts.
Context `{E : Externals}.

Lemma normalize_image_eq (img : img3) :
  normalize_image img = map2 normalize_pixel img.
Proof.
  unfold normalize_image, permute_1_2_0, normalize, permute_2_0_1, to_unit_float.
  cbn [mean std]. rewrite !map2_map2. unfold map2.
  rewrite zip_with_map_same, zip_with_map_same.
  apply map_ext. intros r.
  rewrite zip_with_map_same, zip_with_map_same.
  apply map_ext. intros [[c0 c1] c2]. reflexivity.
Qed.

End NormalizeFacts.

(** * Generators *)

Lemma gen_for_all_yield {A B : Type} (xs : list A) (body : A -> generated B)
    (g : A -> list B) :
  (forall x, In x xs -> body x = Generated (g x) None) ->
  gen_for xs body = Generated (flat_map g xs) None.
Proof.
  induction xs as [|x xs IH]; intros Hbody; simpl; [reflexivity|].
  rewrite (Hbody x) by now left. unfold gen_seq. simpl.
  rewrite IH by (intros y Hy; apply Hbody; now right). reflexivity.
Qed.

Lemma gen_for_yielded_Forall {A B : Type} (P : B -> Prop) (xs : list A)
    (body : A -> generated B) :
  (forall x, In x xs -> Forall P (yielded (body x))) ->
  Forall P (yielded (gen_for xs body)).
Proof.
  induction xs as [|x xs IH]; intros Hbody; simpl; [constructor|].
  unfold gen_seq. destruct (raised (body x)); [apply Hbody; now left|].
  simpl. apply Forall_app. split; [apply Hbody; now left|].
  apply IH. intros y Hy. apply Hbody. now right.
Qed.

Lemma gen_for_raised {A B : Type} (xs : list A) (body : A -> generated B) (e : error) :
  raised (gen_for xs body) = Some e ->
  exists x, In x xs /\ raised (body x) = Some e.
Proof.
  induction xs as [|x xs IH]; simpl; [discriminate|].
  unfold gen_seq. destruct (raised (body x)) as [e'|] eqn:Hx.
  - rewrite Hx. intros [= <-]. exists x. split; [now left|assumption].
  - simpl. intros Hr. destruct (IH Hr) as (y & Hy & Hry).
    exists y. split; [now right|assumption].
Qed.

Lemma gen_for_head {A B : Type} (x : A) (xs : list A) (body : A -> generated B)
    (v : B) (vs : list B) :
  yielded (body x) = v :: vs ->
  exists rest, yielded (gen_for (x :: xs) body) = v :: rest.
Proof.
  intros Hx. simpl. unfold gen_seq. destruct (raised (body x)).
  - eauto.
  - simpl. rewrite Hx. simpl. eauto.
Qed.

(** * Python's range *)

Lemma range_len_pos (stop step : Z) :
  0 < step -> 0 < stop -> 1 <= range_len 0 stop step.
Proof.
  intros Hstep Hstop. unfold range_len.
  destruct (Z.ltb_spec 0 step); [|lia]. destruct (Z.ltb_spec 0 stop); [|lia].
  assert (0 <= (stop - 0 - 1) / step) by (apply Z.div_pos; lia). lia.
Qed.

Lemma range_items_bounds (stop step x : Z) :
  0 < step -> In x (range_items 0 stop step) -> 0 <= x < stop.
Proof.
  intros Hstep Hin. unfold range_items in Hin.
  apply in_map_iff in Hin as (k & <- & Hk). apply in_seq in Hk.
  unfold range_len in Hk. destruct (Z.ltb_spec 0 step); [|lia].
  destruct (Z.ltb_spec 0 stop) as [Hpos|Hneg]; [|simpl in Hk; lia].
  assert (Hq : 0 <= (stop - 0 - 1) / step) by (apply Z.div_pos; lia).
  assert (Hk' : Z.of_nat k <= (stop - 0 - 1) / step) by lia.
  assert (Hmul : step * ((stop - 0 - 1) / step) <= stop - 0 - 1)
    by (apply Z.mul_div_le; lia).
  nia.
Qed.

Lemma range_items_head (stop step : Z) :
  0 < step -> 0 < stop ->
  exists rest, range_items 0 stop step = 0 :: rest.
Proof.
  intros Hstep Hstop. unfold range_items.
  pose proof (range_len_pos stop step Hstep Hstop) as Hlen.
  destruct (Z.to_nat (range_len 0 stop step)) as [|n] eqn:Hn; [lia|].
  simpl. eauto.
Qed.

Lemma range_items_length (start stop step : Z) :
  Z.of_nat (length (range_items start stop step)) = Z.max 0 (range_len start stop step).
Proof.
  unfold range_items. rewrite length_map, length_seq. lia.
Qed.

Lemma range_items_sorted (start stop step : Z) :
  0 < step -> StronglySorted Z.lt (range_items start stop step).
Proof.
  intros Hstep. unfold range_items.
  generalize (Z.to_nat (range_len start stop step)) as n.
  generalize 0%nat as k. intros k n. revert k.
  induction n as [|n IH]; intros k; simpl; constructor.
  - apply IH.
  - apply List.Forall_forall. intros x Hx.
    apply in_map_iff in Hx as (j & <- & Hj). apply in_seq in Hj. nia.
Qed.

(** * Crops *)

Lemma slice_length {A : Type} (a n : Z) (l : list A) :
  0 <= a -> 0 <= n -> a + n <= Z.of_nat (length l) ->
  length (slice a n l) = Z.to_nat n.
Proof.
  intros Ha Hn Hle. unfold slice. rewrite length_firstn, length_skipn. lia.
Qed.

Lemma slice_In {A : Type} (a n : Z) (l : list A) (x : A) :
  In x (slice a n l) -> In x l.
Proof.
  unfold slice. intros Hx.
  rewrite <- (firstn_skipn (Z.to_nat a) l). apply in_or_app. right.
  rewrite <- (firstn_skipn (Z.to_nat n) (skipn (Z.to_nat a) l)).
  apply in_or_app. now left.
Qed.

Lemma crop_shape {A : Type} (row col n : Z) (a : array2 A) (h w : nat) :
  has_shape a h w ->
  0 <= row -> 0 <= col -> 0 <= n ->
  row + n <= Z.of_nat h -> col + n <= Z.of_nat w ->
  has_shape (crop row col n a) (Z.to_nat n) (Z.to_nat n).
Proof.
  intros [Hh Hw] Hrow Hcol Hn Hr Hc. unfold crop, has_shape.
  rewrite length_map, slice_length by lia. split; [reflexivity|].
  apply Forall_map. apply List.Forall_forall. intros r Hin.
  apply slice_In in Hin. rewrite List.Forall_forall in Hw.
  apply slice_length; try lia. rewrite (Hw r Hin). lia.
Qed.

Lemma crop_In {A : Type} (row col n : Z) (a : array2 A) (x : A) :
  In x (concat (crop row col n a)) -> In x (concat a).
Proof.
  unfold crop. intros Hx. apply in_concat in Hx as (r & Hr & Hx).
  apply in_map_iff in Hr as (r0 & <- & Hr0).
  apply in_concat. exists r0. split; [eapply slice_In; eauto|eapply slice_In; eauto].
Qed.

Lemma shape_size0 {A : Type} (a : array2 A) (h w : nat) :
  has_shape a h w -> (0 < h)%nat -> (0 < w)%nat -> size0 a = false.
Proof.
  intros [Hh Hw] Hhpos Hwpos. unfold size0.
  destruct a as [|r a]; [simpl in Hh; lia|].
  pose proof (Forall_inv Hw) as Hr. destruct r as [|x r]; [simpl in Hr; lia|].
  reflexivity.
Qed.

Lemma shape_dims {A : Type} (a : array2 A) (h w : nat) :
  has_shape a h w -> (0 < h)%nat -> height a = Z.of_nat h /\ width a = Z.of_nat w.
Proof.
  intros [Hh Hw] Hhpos. unfold height, width. split; [now rewrite Hh|].
  destruct a as [|r a]; [simpl in Hh; lia|].
  now rewrite (Forall_inv Hw).
Qed.

Lemma all_known_crop (row col n : Z) (mask : img3) :
  all_known_b mask = true -> all_known_b (crop row col n mask) = true.
Proof.
  rewrite !all_known_b_forall. intros Hall p Hp. apply Hall.
  eapply crop_In; eauto.
Qed.

(** * Tiling: the two loops of [IWFullSceneDataset.process_data] *)

Lemma gen_seq_done_l {A : Type} (g : generated A) : gen_seq gen_done g = g.
Proof. now destruct g. Qed.

Lemma gen_seq_assoc {A : Type} (a b c : generated A) :
  gen_seq a (gen_seq b c) = gen_seq (gen_seq a b) c.
Proof.
  destruct a as [ya [ea|]], b as [yb [eb|]]; unfold gen_seq; simpl; try reflexivity.
  now rewrite app_assoc.
Qed.

Lemma gen_for_app {A B : Type} (l1 l2 : list A) (body : A -> generated B) :
  gen_for (l1 ++ l2) body = gen_seq (gen_for l1 body) (gen_for l2 body).
Proof.
  induction l1 as [|x l1 IH]; simpl.
  - now rewrite gen_seq_done_l.
  - now rewrite IH, gen_seq_assoc.
Qed.

Lemma gen_for_map {A B C : Type} (f : A -> B) (l : list A) (body : B -> generated C) :
  gen_for (map f l) body = gen_for l (fun x => body (f x)).
Proof.
  induction l as [|x l IH]; simpl; [reflexivity|]. now rewrite IH.
Qed.

Lemma gen_for_ext_in {A B : Type} (l : list A) (b1 b2 : A -> generated B) :
  (forall x, In x l -> b1 x = b2 x) -> gen_for l b1 = gen_for l b2.
Proof.
  induction l as [|x l IH]; intros Hb; simpl; [reflexivity|].
  rewrite (Hb x) by now left. rewrite IH; [reflexivity|].
  intros y Hy. apply Hb. now right.
Qed.

Lemma gen_for_flat_map {A B C : Type} (g : A -> list B) (xs : list A)
    (body : B -> generated C) :
  gen_for (flat_map g xs) body = gen_for xs (fun x => gen_for (g x) body).
Proof.
  induction xs as [|x xs IH]; simpl; [reflexivity|].
  now rewrite gen_for_app, IH.
Qed.

(** A loop that yields one computed value per item runs up to the first
    item whose computation raises. *)
Lemma gen_for_yield_prefix {A B : Type} (l : list A) (f : A -> result B)
    (ok : A -> bool) (g : A -> B) (e : A -> error) :
  (forall x, In x l -> f x = if ok x then Ok (g x) else Err (e x)) ->
  gen_for l (fun x => gen_yield (f x)) =
  Generated (map g (take_while ok l))
            (match drop_while ok l with
             | [] => None
             | x :: _ => Some (e x)
             end).
Proof.
  induction l as [|x l IH]; intros Hf; simpl; [reflexivity|].
  rewrite (Hf x) by now left.
  destruct (ok x); simpl; [|reflexivity].
  rewrite IH by (intros y Hy; apply Hf; now right).
  reflexivity.
Qed.

Lemma take_while_all {A : Type} (ok : A -> bool) (l : list A) :
  (forall x, In x l -> ok x = true) -> take_while ok l = l /\ drop_while ok l = [].
Proof.
  induction l as [|x l IH]; intros Hok; simpl; [now split|].
  rewrite (Hok x) by now left.
  destruct IH as [Ht Hd]; [intros y Hy; apply Hok; now right|].
  now rewrite Ht, Hd.
Qed.

Lemma take_while_incl {A : Type} (ok : A -> bool) (l : list A) (x : A) :
  In x (take_while ok l) -> In x l /\ ok x = true.
Proof.
  induction l as [|y l IH]; simpl; [contradiction|].
  destruct (ok y) eqn:Hy; simpl; [|contradiction].
  intros [<-|Hx]; [split; [now left|assumption]|].
  destruct (IH Hx). split; [now right|assumption].
Qed.

(** ** The origins *)

Lemma range_len_from_0 (n step : Z) :
  0 < step -> 0 <= n -> range_len 0 (n + 1) step = n / step + 1.
Proof.
  intros Hstep Hn. unfold range_len.
  destruct (Z.ltb_spec 0 step); [|lia]. destruct (Z.ltb_spec 0 (n + 1)); [|lia].
  now replace (n + 1 - 0 - 1) with n by lia.
Qed.

Lemma range_items_multiples (n step x : Z) :
  0 < step -> In x (range_items 0 (n + 1) step) ->
  0 <= x /\ x <= n - n mod step /\ x mod step = 0.
Proof.
  intros Hstep Hin.
  pose proof (range_items_bounds _ _ _ Hstep Hin) as Hb.
  unfold range_items in Hin. apply in_map_iff in Hin as (k & <- & Hk).
  apply in_seq in Hk. rewrite range_len_from_0 in Hk by lia.
  assert (Hq : 0 <= n / step) by (apply Z.div_pos; lia).
  assert (Hk' : Z.of_nat k <= n / step) by lia.
  pose proof (Z.div_mod n step ltac:(lia)) as Hdm.
  split; [lia|]. split; [nia|].
  simpl. apply Z.mod_mul. lia.
Qed.

Lemma length_flat_map_const {A B : Type} (f : A -> list B) (l : list A) (m : nat) :
  (forall x, length (f x) = m) -> length (flat_map f l) = (length l * m)%nat.
Proof.
  intros Hf. induction l as [|x l IH]; simpl; [reflexivity|].
  now rewrite length_app, IH, Hf.
Qed.

Lemma tile_origins_length (H W S : Z) :
  0 < S / 2 -> S <= H -> S <= W ->
  Z.of_nat (length (tile_origins H W S))
  = ((H - S) / (S / 2) + 1) * ((W - S) / (S / 2) + 1).
Proof.
  intros Hstep HH HW. unfold tile_origins.
  rewrite length_flat_map_const
    with (m := length (range_items 0 (W - S + 1) (S / 2)))
    by (intros x; apply length_map).
  rewrite Nat2Z.inj_mul, !range_items_length, !range_len_from_0 by lia.
  assert (0 <= (H - S) / (S / 2)) by (apply Z.div_pos; lia).
  assert (0 <= (W - S) / (S / 2)) by (apply Z.div_pos; lia).
  lia.
Qed.

Lemma tile_origins_In (H W S row col : Z) :
  In (row, col) (tile_origins H W S) <->
  In row (range_items 0 (H - S + 1) (S / 2))
  /\ In col (range_items 0 (W - S + 1) (S / 2)).
Proof.
  unfold tile_origins. rewrite in_flat_map. split.
  - intros (r & Hr & Hin). apply in_map_iff in Hin as (c & [= <- <-] & Hc). now split.
  - intros [Hr Hc]. exists row. split; [assumption|]. apply in_map_iff. eauto.
Qed.

Lemma tile_origins_bounds (H W S row col : Z) :
  0 < S / 2 -> In (row, col) (tile_origins H W S) ->
  (0 <= row /\ row + S <= H - (H - S) mod (S / 2) /\ row mod (S / 2) = 0)
  /\ (0 <= col /\ col + S <= W - (W - S) mod (S / 2) /\ col mod (S / 2) = 0).
Proof.
  intros Hstep Hin. apply tile_origins_In in Hin as [Hr Hc].
  pose proof (range_items_bounds _ _ _ Hstep Hr) as Hbr.
  pose proof (range_items_bounds _ _ _ Hstep Hc) as Hbc.
  apply range_items_multiples in Hr; [|assumption].
  apply range_items_multiples in Hc; [|assumption].
  lia.
Qed.

Lemma tile_origins_single (H W S : Z) :
  0 < S / 2 -> S <= H < S + S / 2 -> S <= W < S + S / 2 ->
  tile_origins H W S = [(0, 0)].
Proof.
  intros Hstep HH HW. unfold tile_origins, range_items.
  rewrite !range_len_from_0 by lia.
  rewrite (Z.div_small (H - S)), (Z.div_small (W - S)) by lia.
  reflexivity.
Qed.

(** ** The loops *)

Section Tiling.
Context `{E : Externals}.

Lemma crop_tiles_loop (filename : string) (image mask : img3) (S : Z) :
  S / 2 <> 0 -> S <= height image -> S <= width image ->
  IWFullSceneDataset.crop_tiles filename image mask S =
  gen_for (tile_origins (height image) (width image) S)
          (fun o => gen_yield (IWFullSceneDataset.tile image mask S (fst o) (snd o))).
Proof.
  intros Hstep HH HW. unfold IWFullSceneDataset.crop_tiles, py_range.
  destruct (Z.ltb_spec (height image) S); [lia|].
  destruct (Z.ltb_spec (width image) S); [lia|]. simpl.
  destruct (Z.eqb_spec (S / 2) 0); [contradiction|].
  unfold tile_origins. rewrite gen_for_flat_map.
  apply gen_for_ext_in. intros row _. now rewrite gen_for_map.
Qed.

Lemma tile_eq (image mask : img3) (S row col : Z) :
  size0 (crop row col S mask) = false ->
  IWFullSceneDataset.tile image mask S row col =
  if tile_decodes mask S (row, col)
  then Ok (tile_at image mask S (row, col))
  else Err (tile_error mask S (row, col)).
Proof.
  intros Hsz. unfold IWFullSceneDataset.tile, tile_decodes, tile_error, tile_at.
  rewrite IWFullSceneDataset_apply_color_map_eq, Hsz. simpl.
  destruct (all_known_b (crop row col S mask)); simpl.
  - now rewrite normalize_image_eq.
  - now destruct (first_known_b (crop row col S mask)).
Qed.

Lemma crop_tiles_general (filename : string) (image mask : img3) (S : Z) (h w : nat) :
  has_shape image h w -> has_shape mask h w ->
  2 <= S -> S <= Z.of_nat h -> S <= Z.of_nat w ->
  IWFullSceneDataset.crop_tiles filename image mask S =
  Generated
    (map (tile_at image mask S)
         (take_while (tile_decodes mask S) (tile_origins (Z.of_nat h) (Z.of_nat w) S)))
    (match drop_while (tile_decodes mask S) (tile_origins (Z.of_nat h) (Z.of_nat w) S) with
     | [] => None
     | o :: _ => Some (tile_error mask S o)
     end).
Proof.
  intros Himg Hmask HS Hh Hw.
  assert (Hstep : 0 < S / 2) by (apply Z.div_str_pos; lia).
  destruct (shape_dims image h w Himg ltac:(lia)) as [Hhi Hwi].
  rewrite crop_tiles_loop by lia. rewrite Hhi, Hwi.
  apply gen_for_yield_prefix. intros [row col] Hin. simpl.
  apply tile_origins_bounds in Hin as [(Hr0 & Hr1 & _) (Hc0 & Hc1 & _)]; [|assumption].
  pose proof (Z.mod_pos_bound (Z.of_nat h - S) (S / 2) Hstep).
  pose proof (Z.mod_pos_bound (Z.of_nat w - S) (S / 2) Hstep).
  apply tile_eq.
  apply shape_size0 with (h := Z.to_nat S) (w := Z.to_nat S); [|lia|lia].
  apply crop_shape with (h := h) (w := w); (assumption || lia).
Qed.

Lemma tile_at_shape (image mask : img3) (S row col : Z) (h w : nat) :
  has_shape image h w -> has_shape mask h w ->
  0 <= row -> 0 <= col -> 0 <= S ->
  row + S <= Z.of_nat h -> col + S <= Z.of_nat w ->
  has_shape (fst (tile_at image mask S (row, col))) (Z.to_nat S) (Z.to_nat S)
  /\ has_shape (snd (tile_at image mask S (row, col))) (Z.to_nat S) (Z.to_nat S).
Proof.
  intros Himg Hmask Hr Hc HS Hrh Hcw. unfold tile_at. simpl.
  assert (Hmap : forall (A B : Type) (f : A -> B) (a : array2 A) n m,
             has_shape a n m -> has_shape (map2 f a) n m).
  { intros A B f a n m [Hn Hm]. unfold has_shape, map2.
    rewrite length_map. split; [assumption|].
    apply Forall_map. eapply Forall_impl; [exact Hm|].
    simpl. intros r Hr'. now rewrite length_map. }
  split; apply Hmap; eapply crop_shape; eauto.
Qed.

End Tiling.

(** * Tiling: what [IWFullSceneDataset.process_data] yields *)

Lemma process_data_crop_tiles `{E : Externals} (filename : string) (raw : raw_image)
    (image mask : img3) (S : Z) :
  IWFullSceneDataset.ensure_bgr raw = Ok image ->
  IWFullSceneDataset.process_data filename (Some raw) (Some mask) S =
  IWFullSceneDataset.crop_tiles filename image mask S.
Proof.
  intros Hbgr. unfold IWFullSceneDataset.process_data. now rewrite Hbgr.
Qed.

(** X1.  Tiling of a scene whose mask holds only colours of the colour map.
    For an h x w image and mask and a tile size S with 2 <= S <= h, w, the
    generator ends without an exception and yields, in row-major order of
    the origins [range(0, h-S+1, S//2)] x [range(0, w-S+1, S//2)], one
    sample per origin: the normalised image crop and the decoded mask crop.
    There are ((h-S)//(S//2) + 1) * ((w-S)//(S//2) + 1) samples, and both
    parts of each are S x S. *)
Theorem tiling_yields_every_tile `{E : Externals} (filename : string) (raw : raw_image)
    (image mask : img3) (S : Z) (h w : nat) :
  IWFullSceneDataset.ensure_bgr raw = Ok image ->
  has_shape image h w -> has_shape mask h w ->
  2 <= S -> S <= Z.of_nat h -> S <= Z.of_nat w ->
  all_known_b mask = true ->
  let out := IWFullSceneDataset.process_data filename (Some raw) (Some mask) S in
  out = Generated (map (tile_at image mask S)
                       (tile_origins (Z.of_nat h) (Z.of_nat w) S)) None
  /\ Z.of_nat (length (yielded out))
     = ((Z.of_nat h - S) / (S / 2) + 1) * ((Z.of_nat w - S) / (S / 2) + 1)
  /\ Forall (fun t => has_shape (fst t) (Z.to_nat S) (Z.to_nat S)
                      /\ has_shape (snd t) (Z.to_nat S) (Z.to_nat S))
            (yielded out).
Proof.
  intros Hbgr Himg Hmask HS Hh Hw Hall out.
  assert (Hstep : 0 < S / 2) by (apply Z.div_str_pos; lia).
  assert (Hout : out = Generated (map (tile_at image mask S)
                                      (tile_origins (Z.of_nat h) (Z.of_nat w) S)) None).
  { unfold out. rewrite (process_data_crop_tiles _ _ _ _ _ Hbgr).
    rewrite (crop_tiles_general filename image mask S h w) by assumption.
    destruct (take_while_all (tile_decodes mask S)
                (tile_origins (Z.of_nat h) (Z.of_nat w) S)) as [Ht Hd].
    { intros o _. unfold tile_decodes. now apply all_known_crop. }
    now rewrite Ht, Hd. }
  split; [exact Hout|]. rewrite Hout. simpl. split.
  - rewrite length_map. now apply tile_origins_length.
  - apply List.Forall_forall. intros t Ht.
    apply in_map_iff in Ht as ([row col] & <- & Hin).
    apply tile_origins_bounds in Hin as [(Hr0 & Hr1 & _) (Hc0 & Hc1 & _)]; [|assumption].
    pose proof (Z.mod_pos_bound (Z.of_nat h - S) (S / 2) Hstep).
    pose proof (Z.mod_pos_bound (Z.of_nat w - S) (S / 2) Hstep).
    apply tile_at_shape with (h := h) (w := w); (assumption || lia).
Qed.

Lemma tiling_yields_every_tile_witness :
  Z.of_nat (length (yielded (IWFullSceneDataset.process_data (H := exact_externals)
      "scene.png"
      (Some (Color3 [[(1, 2, 3); (4, 5, 6); (7, 8, 9)];
                     [(10, 11, 12); (13, 14, 15); (16, 17, 18)];
                     [(19, 20, 21); (22, 23, 24); (25, 26, 27)]]))
      (Some [[(0, 0, 0); (255, 255, 255); (0, 0, 0)];
             [(0, 0, 0); (0, 0, 0); (255, 255, 255)];
             [(255, 255, 255); (0, 0, 0); (0, 0, 0)]])
      2))) = 4.
Proof.
  refine (proj1 (proj2 (tiling_yields_every_tile (E := exact_externals)
    "scene.png"
    (Color3 [[(1, 2, 3); (4, 5, 6); (7, 8, 9)];
             [(10, 11, 12); (13, 14, 15); (16, 17, 18)];
             [(19, 20, 21); (22, 23, 24); (25, 26, 27)]])
    [[(1, 2, 3); (4, 5, 6); (7, 8, 9)];
     [(10, 11, 12); (13, 14, 15); (16, 17, 18)];
     [(19, 20, 21); (22, 23, 24); (25, 26, 27)]]
    [[(0, 0, 0); (255, 255, 255); (0, 0, 0)];
     [(0, 0, 0); (0, 0, 0); (255, 255, 255)];
     [(255, 255, 255); (0, 0, 0); (0, 0, 0)]]
    2 3 3 eq_refl _ _ _ _ _ _))).
  - split; [reflexivity|repeat constructor].
  - split; [reflexivity|repeat constructor].
  - lia.
  - lia.
  - lia.
  - reflexivity.
Defined.

(** X2.  Tiling stops at the first tile whose mask crop holds a colour that
    is no key of the colour map.  For an h x w image and mask and
    2 <= S <= h, w, the samples yielded are exactly those of the origins
    before the first such tile, in order, and the generator then ends with
    the decoder's exception (the TypeError of [np.vectorize] when the first
    pixel of the crop is known, the ValueError otherwise); it ends without
    an exception exactly when every crop decodes. *)
Theorem tiling_stops_at_first_unknown_colour `{E : Externals} (filename : string)
    (raw : raw_image) (image mask : img3) (S : Z) (h w : nat) :
  IWFullSceneDataset.ensure_bgr raw = Ok image ->
  has_shape image h w -> has_shape mask h w ->
  2 <= S -> S <= Z.of_nat h -> S <= Z.of_nat w ->
  let origins := tile_origins (Z.of_nat h) (Z.of_nat w) S in
  let out := IWFullSceneDataset.process_data filename (Some raw) (Some mask) S in
  yielded out = map (tile_at image mask S) (take_while (tile_decodes mask S) origins)
  /\ raised out = match drop_while (tile_decodes mask S) origins with
                  | [] => None
                  | o :: _ => Some (tile_error mask S o)
                  end
  /\ (raised out = None <-> forall o, In o origins -> tile_decodes mask S o = true).
Proof.
  intros Hbgr Himg Hmask HS Hh Hw origins out.
  unfold out. rewrite (process_data_crop_tiles _ _ _ _ _ Hbgr).
  rewrite (crop_tiles_general filename image mask S h w) by assumption.
  fold origins. simpl. split; [reflexivity|]. split; [reflexivity|].
  split.
  - destruct (drop_while (tile_decodes mask S) origins) as [|o rest] eqn:Hd;
      [|discriminate].
    intros _. clear -Hd. induction origins as [|x l IH]; [contradiction|].
    simpl in Hd. destruct (tile_decodes mask S x) eqn:Hx; [|discriminate].
    intros o [<-|Ho]; [assumption|now apply IH].
  - intros Hall. now destruct (take_while_all _ _ Hall) as [_ ->].
Qed.

Lemma tiling_stops_at_first_unknown_colour_witness :
  let out := IWFullSceneDataset.process_data (H := exact_externals) "scene.png"
      (Some (Color3 [[(1, 2, 3); (4, 5, 6); (7, 8, 9)];
                     [(10, 11, 12); (13, 14, 15); (16, 17, 18)];
                     [(19, 20, 21); (22, 23, 24); (25, 26, 27)]]))
      (Some [[(0, 0, 0); (255, 255, 255); (0, 0, 0)];
             [(0, 0, 0); (0, 0, 0); (255, 255, 255)];
             [(255, 255, 255); (0, 0, 7); (0, 0, 0)]])
      2 in
  length (yielded out) = 2%nat /\ raised out = Some NoneToInt.
Proof.
  destruct (tiling_stops_at_first_unknown_colour (E := exact_externals)
    "scene.png"
    (Color3 [[(1, 2, 3); (4, 5, 6); (7, 8, 9)];
             [(10, 11, 12); (13, 14, 15); (16, 17, 18)];
             [(19, 20, 21); (22, 23, 24); (25, 26, 27)]])
    [[(1, 2, 3); (4, 5, 6); (7, 8, 9)];
     [(10, 11, 12); (13, 14, 15); (16, 17, 18)];
     [(19, 20, 21); (22, 23, 24); (25, 26, 27)]]
    [[(0, 0, 0); (255, 255, 255); (0, 0, 0)];
     [(0, 0, 0); (0, 0, 0); (255, 255, 255)];
     [(255, 255, 255); (0, 0, 7); (0, 0, 0)]]
    2 3 3 eq_refl
    ltac:(split; [reflexivity|repeat constructor])
    ltac:(split; [reflexivity|repeat constructor])
    ltac:(lia) ltac:(lia) ltac:(lia)) as (Hy & Hr & _).
  intros out. split.
  - etransitivity; [apply (f_equal (@length _)); exact Hy|reflexivity].
  - etransitivity; [exact Hr|reflexivity].
Defined.

(** X3.  The size check of the tiling.  The generator ends with
    [ValueError("Image ... is smaller than crop size ...")] exactly when
    the image is lower or narrower than the tile size, and then it has
    yielded nothing; no other path of the function raises that error. *)
Theorem tiling_too_small_iff `{E : Externals} (filename : string) (image mask : img3)
    (S : Z) :
  (raised (IWFullSceneDataset.crop_tiles filename image mask S)
     = Some (ImageSmallerThanCrop filename S)
   <-> height image < S \/ width image < S)
  /\ (raised (IWFullSceneDataset.crop_tiles filename image mask S)
        = Some (ImageSmallerThanCrop filename S)
      <-> IWFullSceneDataset.crop_tiles filename image mask S
          = Generated [] (Some (ImageSmallerThanCrop filename S))).
Proof.
  assert (Hsmall : height image < S \/ width image < S ->
                   IWFullSceneDataset.crop_tiles filename image mask S
                   = Generated [] (Some (ImageSmallerThanCrop filename S))).
  { intros Hlt. unfold IWFullSceneDataset.crop_tiles.
    destruct (Z.ltb_spec (height image) S); [reflexivity|].
    destruct (Z.ltb_spec (width image) S); [reflexivity|]. lia. }
  assert (Hconv : raised (IWFullSceneDataset.crop_tiles filename image mask S)
                    = Some (ImageSmallerThanCrop filename S) ->
                  height image < S \/ width image < S).
  { unfold IWFullSceneDataset.crop_tiles.
    destruct (Z.ltb_spec (height image) S); [intros _; now left|].
    destruct (Z.ltb_spec (width image) S); [intros _; now right|]. simpl.
    unfold py_range. destruct (S / 2 =? 0); [discriminate|].
    intros Hr. exfalso.
    apply gen_for_raised in Hr as (row & _ & Hr).
    apply gen_for_raised in Hr as (col & _ & Hr).
    unfold IWFullSceneDataset.tile in Hr.
    rewrite IWFullSceneDataset_apply_color_map_eq in Hr.
    destruct (size0 (crop row col S mask)); [discriminate|].
    destruct (all_known_b (crop row col S mask)); [discriminate|].
    destruct (first_known_b (crop row col S mask)); discriminate. }
  split; split.
  - exact Hconv.
  - intros Hlt. now rewrite (Hsmall Hlt).
  - intros Hr. apply Hsmall, Hconv, Hr.
  - intros ->. reflexivity.
Qed.

(** X4.  A tile size of 0 or 1 gives the stride [img_size // 2 = 0]: for
    every image at least that large the generator ends with the ValueError
    of [range] (step zero) and yields nothing. *)
Theorem tiling_stride_zero `{E : Externals} (filename : string) (image mask : img3)
    (S : Z) :
  0 <= S <= 1 -> S <= height image -> S <= width image ->
  IWFullSceneDataset.crop_tiles filename image mask S = Generated [] (Some RangeStepZero).
Proof.
  intros HS HH HW. unfold IWFullSceneDataset.crop_tiles.
  destruct (Z.ltb_spec (height image) S); [lia|].
  destruct (Z.ltb_spec (width image) S); [lia|]. simpl.
  unfold py_range. rewrite Z.div_small by lia. reflexivity.
Qed.

Lemma tiling_stride_zero_witness :
  IWFullSceneDataset.crop_tiles (H := exact_externals) "scene.png"
    [[(1, 2, 3); (4, 5, 6)]; [(7, 8, 9); (10, 11, 12)]]
    [[(0, 0, 0); (0, 0, 0)]; [(0, 0, 0); (0, 0, 0)]] 1
  = Generated [] (Some RangeStepZero).
Proof.
  apply (tiling_stride_zero (E := exact_externals));
    [lia|vm_compute; discriminate|vm_compute; discriminate].
Defined.

(** X5.  A scene less than one and a half tiles high and wide gives one
    tile.  For 2 <= S, S <= h < S + S//2 and S <= w < S + S//2 the only
    origin is (0, 0): the generator yields the top-left S x S sample and
    nothing else when its mask crop decodes, and nothing at all otherwise;
    rows and columns from S on reach no sample. *)
Theorem tiling_single_tile `{E : Externals} (filename : string) (raw : raw_image)
    (image mask : img3) (S : Z) (h w : nat) :
  IWFullSceneDataset.ensure_bgr raw = Ok image ->
  has_shape image h w -> has_shape mask h w ->
  2 <= S ->
  S <= Z.of_nat h < S + S / 2 -> S <= Z.of_nat w < S + S / 2 ->
  IWFullSceneDataset.process_data filename (Some raw) (Some mask) S =
  if all_known_b (crop 0 0 S mask)
  then Generated [(map2 normalize_pixel (crop 0 0 S image),
                   map2 color_class (crop 0 0 S mask))] None
  else Generated [] (Some (if first_known_b (crop 0 0 S mask)
                           then NoneToInt else UnknownPixelValues)).
Proof.
  intros Hbgr Himg Hmask HS Hh Hw.
  assert (Hstep : 0 < S / 2) by (apply Z.div_str_pos; lia).
  rewrite (process_data_crop_tiles _ _ _ _ _ Hbgr).
  rewrite (crop_tiles_general filename image mask S h w) by (assumption || lia).
  rewrite tile_origins_single by assumption. simpl.
  unfold tile_decodes, tile_error, tile_at. simpl.
  now destruct (all_known_b (crop 0 0 S mask)).
Qed.

Lemma tiling_single_tile_witness :
  length (yielded (IWFullSceneDataset.process_data (H := exact_externals) "scene.png"
      (Some (Color3 (repeat (repeat (9, 9, 9) 5) 5)))
      (Some (repeat (repeat (255, 255, 255) 5) 5)) 4)) = 1%nat.
Proof.
  etransitivity.
  - apply (f_equal (fun g => length (yielded g))).
    exact (tiling_single_tile (E := exact_externals) "scene.png"
             (Color3 (repeat (repeat (9, 9, 9) 5) 5))
             (repeat (repeat (9, 9, 9) 5) 5)
             (repeat (repeat (255, 255, 255) 5) 5) 4 5 5 eq_refl
             ltac:(split; [reflexivity|repeat constructor])
             ltac:(split; [reflexivity|repeat constructor])
             ltac:(lia)
             ltac:(vm_compute; split; [discriminate|reflexivity])
             ltac:(vm_compute; split; [discriminate|reflexivity])).
  - reflexivity.
Defined.

(** X6.  No tile runs past the image, and the last strip is dropped.
    Whatever the mask holds, every sample yielded for an h x w scene and
    2 <= S <= h, w is the sample of an origin (row, col) whose coordinates
    are multiples of the stride S//2 with
    row + S <= h - (h-S) mod (S//2) and col + S <= w - (w-S) mod (S//2):
    the last (h-S) mod (S//2) rows and (w-S) mod (S//2) columns of the
    scene are in no sample. *)
Theorem tiling_drops_last_strip `{E : Externals} (filename : string) (raw : raw_image)
    (image mask : img3) (S : Z) (h w : nat) :
  IWFullSceneDataset.ensure_bgr raw = Ok image ->
  has_shape image h w -> has_shape mask h w ->
  2 <= S -> S <= Z.of_nat h -> S <= Z.of_nat w ->
  Forall (fun t => exists row col,
              t = (map2 normalize_pixel (crop row col S image),
                   map2 color_class (crop row col S mask))
              /\ 0 <= row /\ row mod (S / 2) = 0
              /\ row + S <= Z.of_nat h - (Z.of_nat h - S) mod (S / 2)
              /\ 0 <= col /\ col mod (S / 2) = 0
              /\ col + S <= Z.of_nat w - (Z.of_nat w - S) mod (S / 2))
         (yielded (IWFullSceneDataset.process_data filename (Some raw) (Some mask) S)).
Proof.
  intros Hbgr Himg Hmask HS Hh Hw.
  assert (Hstep : 0 < S / 2) by (apply Z.div_str_pos; lia).
  rewrite (process_data_crop_tiles _ _ _ _ _ Hbgr).
  rewrite (crop_tiles_general filename image mask S h w) by assumption.
  simpl. apply List.Forall_forall. intros t Ht.
  apply in_map_iff in Ht as ([row col] & <- & Hin).
  apply take_while_incl in Hin as [Hin _].
  apply tile_origins_bounds in Hin as [(Hr0 & Hr1 & Hr2) (Hc0 & Hc1 & Hc2)];
    [|assumption].
  exists row, col. unfold tile_at. simpl. repeat split; assumption.
Qed.

Lemma tiling_drops_last_strip_witness :
  Forall (fun t => exists row col,
              t = (map2 (normalize_pixel (H := exact_externals))
                        (crop row col 4 (repeat (repeat (9, 9, 9) 5) 5)),
                   map2 color_class (crop row col 4 (repeat (repeat (255, 255, 255) 5) 5)))
              /\ 0 <= row /\ row mod (4 / 2) = 0
              /\ row + 4 <= Z.of_nat 5 - (Z.of_nat 5 - 4) mod (4 / 2)
              /\ 0 <= col /\ col mod (4 / 2) = 0
              /\ col + 4 <= Z.of_nat 5 - (Z.of_nat 5 - 4) mod (4 / 2))
         (yielded (IWFullSceneDataset.process_data (H := exact_externals) "scene.png"
                     (Some (Color3 (repeat (repeat (9, 9, 9) 5) 5)))
                     (Some (repeat (repeat (255, 255, 255) 5) 5)) 4)).
Proof.
  apply (tiling_drops_last_strip (E := exact_externals) "scene.png"
           (Color3 (repeat (repeat (9, 9, 9) 5) 5))
           (repeat (repeat (9, 9, 9) 5) 5)
           (repeat (repeat (255, 255, 255) 5) 5) 4 5 5 eq_refl).
  - split; [reflexivity|repeat constructor].
  - split; [reflexivity|repeat constructor].
  - lia.
  - vm_compute; discriminate.
  - vm_compute; discriminate.
Defined.

(** * The packed colours *)

Lemma land_shiftl_small (a b k : Z) :
  0 <= k -> 0 <= b < 2 ^ k -> Z.land (Z.shiftl a k) b = 0.
Proof.
  intros Hk Hb. apply Z.bits_inj'. intros n Hn.
  rewrite Z.land_spec, Z.bits_0.
  destruct (Z.lt_ge_cases n k) as [Hlt|Hge].
  - now rewrite Z.shiftl_spec_low.
  - rewrite <- (Z.mod_small b (2 ^ k)) by assumption.
    rewrite Z.mod_pow2_bits_high by lia. apply andb_false_r.
Qed.

Lemma lor_shiftl_add (a b k : Z) :
  0 <= k -> 0 <= b < 2 ^ k -> Z.lor (Z.shiftl a k) b = a * 2 ^ k + b.
Proof.
  intros Hk Hb. pose proof (land_shiftl_small a b k Hk Hb) as Hland.
  rewrite <- Z.lxor_lor by assumption.
  rewrite <- Z.add_nocarry_lxor by assumption.
  now rewrite Z.shiftl_mul_pow2.
Qed.

Lemma encode_uint8_eq (c0 c1 c2 : Z) :
  uint8_pixel (c0, c1, c2) -> encode (c0, c1, c2) = c0 * 65536 + c1 * 256 + c2.
Proof.
  intros (H0 & H1 & H2). unfold encode.
  replace (Z.shiftl c0 16) with (Z.shiftl (Z.shiftl c0 8) 8)
    by (rewrite Z.shiftl_shiftl by lia; reflexivity).
  rewrite <- Z.shiftl_lor.
  rewrite (lor_shiftl_add c0 c1 8) by (simpl; lia).
  rewrite lor_shiftl_add by (simpl; lia).
  change (2 ^ 8) with 256. lia.
Qed.

Lemma known_b_uint8 (p : pixel) :
  uint8_pixel p -> (known_b (encode p) = true <-> black_or_white p).
Proof.
  destruct p as [[c0 c1] c2]. intros Hp.
  rewrite known_b_spec, (encode_uint8_eq _ _ _ Hp).
  destruct Hp as (H0 & H1 & H2). unfold black_or_white.
  rewrite orb_true_iff, !Z.eqb_eq. split.
  - intros [He|He]; [left|right].
    + assert (c0 = 0 /\ c1 = 0 /\ c2 = 0) as (-> & -> & ->) by lia. reflexivity.
    + assert (c0 = 255 /\ c1 = 255 /\ c2 = 255) as (-> & -> & ->) by lia. reflexivity.
  - intros [[= -> -> ->]|[= -> -> ->]]; [now left|now right].
Qed.

Lemma color_class_values (p : pixel) : color_class p = 0 \/ color_class p = 1.
Proof.
  unfold color_class. rewrite lookup_color_to_index.
  destruct (encode p =? 16777215); [now right|].
  destruct (encode p =? 0); now left.
Qed.

Lemma map2_shape {A B : Type} (f : A -> B) (a : array2 A) (n m : nat) :
  has_shape a n m -> has_shape (map2 f a) n m.
Proof.
  intros [Hn Hm]. unfold has_shape, map2.
  rewrite length_map. split; [assumption|].
  apply Forall_map. eapply Forall_impl; [exact Hm|].
  simpl. intros r Hr. now rewrite length_map.
Qed.



(** X8.  What [TopLeftPad.apply_color_map] accepts.  On a uint8 mask it
    succeeds exactly when every pixel is pure black or pure white, and then
    the output holds 1 at the white pixels and 0 at the black ones;
    otherwise it raises the ValueError. *)
Theorem pad_crop_decoder_accepts_black_and_white (mask : img3) :
  Forall (Forall uint8_pixel) mask ->
  ((exists out, TopLeftPad.apply_color_map mask = Ok out)
   <-> Forall (Forall black_or_white) mask)
  /\ (forall out, TopLeftPad.apply_color_map mask = Ok out ->
        out = map2 (fun p => if encode p =? 16777215 then 1 else 0) mask)
  /\ (forall e, TopLeftPad.apply_color_map mask = Err e -> e = UnknownPixelValues).
Proof.
  intros Hu8. rewrite TopLeftPad_apply_color_map_eq.
  assert (Hiff : all_known_b mask = true <-> Forall (Forall black_or_white) mask).
  { rewrite all_known_b_forall. split.
    - intros Hall. apply List.Forall_forall. intros r Hr.
      apply List.Forall_forall. intros p Hp.
      rewrite List.Forall_forall in Hu8. specialize (Hu8 r Hr).
      rewrite List.Forall_forall in Hu8.
      apply known_b_uint8; [now apply Hu8|].
      apply Hall. apply in_concat. eauto.
    - intros Hbw p Hp. apply in_concat in Hp as (r & Hr & Hp).
      rewrite List.Forall_forall in Hu8, Hbw.
      specialize (Hu8 r Hr). specialize (Hbw r Hr).
      rewrite List.Forall_forall in Hu8, Hbw.
      apply known_b_uint8; [now apply Hu8|now apply Hbw]. }
  split; [|split].
  - rewrite <- Hiff. destruct (all_known_b mask); split; eauto.
    + intros [out Hout]. discriminate.
    + discriminate.
  - intros out. destruct (all_known_b mask) eqn:Hall; [|discriminate].
    intros [= <-]. apply map2_ext_in. intros p Hp.
    unfold color_class. rewrite lookup_color_to_index.
    destruct (encode p =? 16777215); [reflexivity|].
    now destruct (encode p =? 0).
  - intros e. destruct (all_known_b mask); [discriminate|]. now intros [= <-].
Qed.

Lemma pad_crop_decoder_accepts_black_and_white_witness :
  exists out, TopLeftPad.apply_color_map [[(0, 0, 0); (255, 255, 255)]] = Ok out.
Proof.
  apply (pad_crop_decoder_accepts_black_and_white [[(0, 0, 0); (255, 255, 255)]]).
  - repeat constructor; simpl; lia.
  - repeat constructor; (now left) || (now right).
Defined.

(** X9.  The three decoders agree wherever they succeed.  On a non-empty
    mask, [TopLeftPad.apply_color_map], [IWFullSceneDataset.apply_color_map]
    and the decoder written out in [iw_dataset.process_data] return the
    same index mask or all fail; on an empty mask the first returns the
    empty mask and the two built on [np.vectorize] raise its ValueError. *)
Theorem decoders_agree (mask_path : string) (mask : img3) :
  (size0 mask = false ->
   forall out,
     (TopLeftPad.apply_color_map mask = Ok out
      <-> IWFullSceneDataset.apply_color_map mask = Ok out)
     /\ (TopLeftPad.apply_color_map mask = Ok out
         <-> IWDataset.decode_mask mask_path mask = Ok out))
  /\ (size0 mask = true ->
      TopLeftPad.apply_color_map mask = Ok (map2 color_class mask)
      /\ IWFullSceneDataset.apply_color_map mask = Err VectorizeSizeZero
      /\ IWDataset.decode_mask mask_path mask = Err VectorizeSizeZero).
Proof.
  rewrite TopLeftPad_apply_color_map_eq, IWFullSceneDataset_apply_color_map_eq,
    IWDataset_decode_mask_eq.
  split.
  - intros ->. intros out.
    destruct (all_known_b mask); [tauto|].
    destruct (first_known_b mask); split; split; discriminate.
  - intros Hsz. rewrite Hsz. split; [|now split].
    assert (Hall : all_known_b mask = true).
    { apply all_known_b_forall. intros p Hp. unfold size0 in Hsz.
      destruct (concat mask); [contradiction|discriminate]. }
    now rewrite Hall.
Qed.

(** X10.  A decoded mask has the shape of the mask it came from and holds
    only the class indices 0 and 1, for both [apply_color_map] methods. *)
Theorem decoded_mask_shape_and_range (mask : img3) (out : array2 Z) (h w : nat) :
  TopLeftPad.apply_color_map mask = Ok out
  \/ IWFullSceneDataset.apply_color_map mask = Ok out ->
  has_shape mask h w ->
  has_shape out h w /\ Forall (Forall (fun o => o = 0 \/ o = 1)) out.
Proof.
  intros Hdec Hshape.
  assert (Hout : out = map2 color_class mask).
  { destruct Hdec as [Hdec|Hdec].
    - rewrite TopLeftPad_apply_color_map_eq in Hdec.
      destruct (all_known_b mask); [now injection Hdec|discriminate].
    - rewrite IWFullSceneDataset_apply_color_map_eq in Hdec.
      destruct (size0 mask); [discriminate|].
      destruct (all_known_b mask); [now injection Hdec|].
      destruct (first_known_b mask); discriminate. }
  subst out. split; [now apply map2_shape|].
  unfold map2. apply Forall_map. apply List.Forall_forall. intros r _.
  apply Forall_map. apply List.Forall_forall. intros p _.
  apply color_class_values.
Qed.

Lemma decoded_mask_shape_and_range_witness :
  has_shape [[0; 1]] 1 2 /\ Forall (Forall (fun o => o = 0 \/ o = 1)) [[0; 1]].
Proof.
  apply (decoded_mask_shape_and_range [[(0, 0, 0); (255, 255, 255)]] [[0; 1]] 1 2).
  - left. reflexivity.
  - split; [reflexivity|repeat constructor].
Defined.

(** * PadCrop: the canvas of [TopLeftPad.process_data] *)

Lemma broadcast_rows_same {A : Type} (n : nat) (rows : array2 A) :
  Forall (fun r => length r = n) rows -> broadcast_rows n rows = Some rows.
Proof.
  induction 1 as [|r rows Hr _ IH]; simpl; [reflexivity|].
  unfold broadcast_axis. rewrite Hr, Nat.eqb_refl. now rewrite IH.
Qed.

Lemma zip_with_repeat_r {A B C : Type} (f : A -> B -> C) (l : list A) (y : B) :
  zip_with f l (repeat y (length l)) = map (fun x => f x y) l.
Proof.
  induction l as [|x l IH]; simpl; [reflexivity|]. now rewrite IH.
Qed.

Lemma firstn_repeat {A : Type} (x : A) (k n : nat) :
  (k <= n)%nat -> firstn k (repeat x n) = repeat x k.
Proof.
  revert n. induction k as [|k IH]; intros n Hk; [reflexivity|].
  destruct n as [|n]; [lia|]. simpl. rewrite IH by lia. reflexivity.
Qed.

Lemma skipn_repeat {A : Type} (x : A) (k n : nat) :
  skipn k (repeat x n) = repeat x (n - k).
Proof.
  revert n. induction k as [|k IH]; intros n; simpl.
  - now rewrite Nat.sub_0_r.
  - destruct n as [|n]; [reflexivity|]. simpl. apply IH.
Qed.

Lemma assign_top_left_canvas {A : Type} (fill : A) (n h w : nat) (value : array2 A) :
  has_shape value h w -> (h <= n)%nat -> (w <= n)%nat -> (0 < n)%nat ->
  assign_top_left (repeat (repeat fill n) n) (Z.of_nat h) (Z.of_nat w) value
  = Ok (pad_top_left fill n value).
Proof.
  intros [Hh Hw] Hhn Hwn Hn. unfold assign_top_left.
  assert (Hwidth : width (repeat (repeat fill n) n) = Z.of_nat n).
  { destruct n as [|n]; [lia|]. simpl. now rewrite repeat_length. }
  rewrite Hwidth, !Nat2Z.id, repeat_length.
  rewrite (Nat.min_l h n), (Nat.min_l w n) by assumption.
  unfold broadcast_axis at 1. rewrite Hh, Nat.eqb_refl.
  rewrite broadcast_rows_same by assumption.
  rewrite firstn_repeat by assumption. rewrite <- Hh at 1.
  rewrite zip_with_repeat_r, !skipn_repeat. unfold pad_top_left.
  rewrite Hh. apply f_equal. apply (f_equal2 (@app _)); [|reflexivity].
  apply map_ext_in. intros r Hr.
  rewrite List.Forall_forall in Hw. now rewrite (Hw r Hr).
Qed.

Lemma pad_top_left_shape {A : Type} (fill : A) (n h w : nat) (a : array2 A) :
  has_shape a h w -> (h <= n)%nat -> (w <= n)%nat ->
  has_shape (pad_top_left fill n a) n n.
Proof.
  intros [Hh Hw] Hhn Hwn. unfold pad_top_left, has_shape.
  rewrite length_app, length_map, repeat_length. split; [lia|].
  apply Forall_app. split.
  - apply Forall_map. eapply Forall_impl; [exact Hw|]. simpl.
    intros r Hr. rewrite length_app, repeat_length. lia.
  - apply List.Forall_forall. intros r Hr. apply repeat_spec in Hr. subst r.
    apply repeat_length.
Qed.

Lemma map_repeat {A B : Type} (f : A -> B) (x : A) (n : nat) :
  map f (repeat x n) = repeat (f x) n.
Proof. induction n as [|n IH]; simpl; [reflexivity|]. now rewrite IH. Qed.

Lemma map2_pad_top_left {A B : Type} (f : A -> B) (fill : A) (n : nat) (a : array2 A) :
  map2 f (pad_top_left fill n a) = pad_top_left (f fill) n (map2 f a).
Proof.
  unfold map2, pad_top_left. rewrite map_app, !map_map, map_repeat, map_repeat.
  rewrite length_map. f_equal. apply map_ext. intros r.
  now rewrite map_app, map_repeat, length_map.
Qed.

Lemma forallb_repeat {A : Type} (P : A -> bool) (x : A) (n : nat) :
  P x = true -> forallb P (repeat x n) = true.
Proof. intros HP. induction n as [|n IH]; simpl; [reflexivity|]. now rewrite HP, IH. Qed.

Lemma all_known_pad_top_left (n : nat) (mask : img3) :
  all_known_b (pad_top_left (0, 0, 0) n mask) = all_known_b mask.
Proof.
  unfold all_known_b, pad_top_left. rewrite forallb_app.
  rewrite (forallb_repeat _ (repeat (0, 0, 0) n))
    by (now apply forallb_repeat).
  rewrite andb_true_r. induction mask as [|r mask IH]; simpl; [reflexivity|].
  rewrite IH, forallb_app, forallb_repeat by reflexivity.
  now rewrite andb_true_r.
Qed.

Section PadCrop.
Context `{E : Externals}.

(** Lines 109-125, once the content and its dimensions are known. *)
Lemma process_data_fitted (filename : string) (raw : raw_image) (mask : img3) (S : Z)
    (image' mask' : img3) (h' w' : nat) :
  TopLeftPad.resize_to_fit (TopLeftPad.ensure_bgr raw) mask S
    = Ok (image', mask', (Z.of_nat h', Z.of_nat w')) ->
  has_shape image' h' w' -> has_shape mask' h' w' ->
  Z.of_nat h' <= S -> Z.of_nat w' <= S -> 0 < S ->
  TopLeftPad.process_data filename (Some raw) (Some mask) S =
  if all_known_b mask'
  then Ok ([pad_top_left (normalize_pixel (0, 0, 0)) (Z.to_nat S)
              (map2 normalize_pixel image')],
           [pad_top_left 0 (Z.to_nat S) (map2 color_class mask')])
  else Err UnknownPixelValues.
Proof.
  intros Hfit Himg Hmask Hh Hw HS. unfold TopLeftPad.process_data.
  rewrite Hfit. simpl. unfold np_zeros.
  destruct (Z.ltb_spec S 0); [lia|]. simpl.
  rewrite (assign_top_left_canvas (0, 0, 0) (Z.to_nat S) h' w' image')
    by (assumption || lia). simpl.
  rewrite (assign_top_left_canvas (0, 0, 0) (Z.to_nat S) h' w' mask')
    by (assumption || lia). simpl.
  rewrite TopLeftPad_apply_color_map_eq, all_known_pad_top_left.
  destruct (all_known_b mask'); simpl; [|reflexivity].
  now rewrite normalize_image_eq, !map2_pad_top_left.
Qed.

Lemma resize_to_fit_small (image mask : img3) (S : Z) :
  height image < S -> width image < S ->
  TopLeftPad.resize_to_fit image mask S = Ok (image, mask, (height image, width image)).
Proof.
  intros Hh Hw. unfold TopLeftPad.resize_to_fit.
  destruct (Z.leb_spec S (height image)); [lia|].
  destruct (Z.leb_spec S (width image)); [lia|]. reflexivity.
Qed.

End PadCrop.

(** X11.  PadCrop without resize.  For an h x w image and mask with h < S
    and w < S, [process_data] returns one pair, or raises the ValueError of
    [apply_color_map] when the mask holds a colour outside the colour map.
    The image of the pair is the normalised image in the top-left corner of
    an S x S canvas whose other pixels are the normalised black pixel; the
    mask of the pair is the decoded mask in the top-left corner of an S x S
    canvas of class 0.  Both are S x S. *)
Theorem pad_crop_without_resize `{E : Externals} (filename : string) (raw : raw_image)
    (mask : img3) (S : Z) (h w : nat) :
  has_shape (TopLeftPad.ensure_bgr raw) h w -> has_shape mask h w ->
  (0 < h)%nat -> Z.of_nat h < S -> Z.of_nat w < S ->
  let image_out := pad_top_left (normalize_pixel (0, 0, 0)) (Z.to_nat S)
                     (map2 normalize_pixel (TopLeftPad.ensure_bgr raw)) in
  let mask_out := pad_top_left 0 (Z.to_nat S) (map2 color_class mask) in
  TopLeftPad.process_data filename (Some raw) (Some mask) S
    = (if all_known_b mask then Ok ([image_out], [mask_out])
       else Err UnknownPixelValues)
  /\ has_shape image_out (Z.to_nat S) (Z.to_nat S)
  /\ has_shape mask_out (Z.to_nat S) (Z.to_nat S).
Proof.
  intros Himg Hmask Hpos Hh Hw image_out mask_out.
  destruct (shape_dims _ h w Himg Hpos) as [Hhi Hwi].
  split; [|split].
  - apply process_data_fitted with (h' := h) (w' := w); try (assumption || lia).
    rewrite resize_to_fit_small by lia. now rewrite Hhi, Hwi.
  - apply pad_top_left_shape with (h := h) (w := w); [now apply map2_shape|lia|lia].
  - apply pad_top_left_shape with (h := h) (w := w); [now apply map2_shape|lia|lia].
Qed.

Lemma pad_crop_without_resize_witness :
  TopLeftPad.process_data (H := exact_externals) "a.png"
    (Some (Gray [[0; 255]])) (Some [[(255, 255, 255); (0, 0, 0)]]) 3
  = Ok ([pad_top_left (normalize_pixel (0, 0, 0)) 3
           (map2 normalize_pixel [[(0, 0, 0); (255, 255, 255)]])],
        [[[1; 0; 0]; [0; 0; 0]; [0; 0; 0]]]).
Proof.
  apply (pad_crop_without_resize (E := exact_externals) "a.png" (Gray [[0; 255]])
           [[(255, 255, 255); (0, 0, 0)]] 3 1 2).
  - split; [reflexivity|repeat constructor].
  - split; [reflexivity|repeat constructor].
  - lia.
  - lia.
  - lia.
Defined.

(** * Rounding and the float model *)

Lemma round_half_even_le (y : Q) (z : Z) :
  (y < inject_Z z + (1 # 2))%Q -> round_half_even y <= z.
Proof.
  intros Hy. unfold round_half_even.
  pose proof (Qfloor_le y) as Hlo. pose proof (Qlt_floor y) as Hhi.
  set (f := Qfloor y) in *.
  assert (Hf : f <= z).
  { apply Z.lt_succ_r. rewrite Zlt_Qlt. unfold Z.succ. rewrite inject_Z_plus.
    change (inject_Z 1) with 1%Q. lra. }
  destruct (Qcompare (y - inject_Z f) (1 # 2)) eqn:Hc.
  - destruct (Z.even f); [lia|].
    apply Qeq_alt in Hc.
    destruct (Z.eq_dec f z) as [->|Hne]; [lra|lia].
  - lia.
  - apply Qgt_alt in Hc.
    destruct (Z.eq_dec f z) as [->|Hne]; [lra|lia].
Qed.

Lemma round_half_even_ge (y : Q) (z : Z) :
  (inject_Z z - (1 # 2) < y)%Q -> z <= round_half_even y.
Proof.
  intros Hy. unfold round_half_even.
  pose proof (Qfloor_le y) as Hlo. pose proof (Qlt_floor y) as Hhi.
  set (f := Qfloor y) in *.
  rewrite inject_Z_plus in Hhi. change (inject_Z 1) with 1%Q in Hhi.
  assert (Hf : z <= f + 1).
  { apply Z.lt_succ_r. rewrite Zlt_Qlt. unfold Z.succ.
    rewrite !inject_Z_plus. change (inject_Z 1) with 1%Q. lra. }
  destruct (Z.eq_dec (f + 1) z) as [Heq|Hne].
  - rewrite <- Heq in Hy. rewrite inject_Z_plus in Hy.
    change (inject_Z 1) with 1%Q in Hy.
    destruct (Qcompare (y - inject_Z f) (1 # 2)) eqn:Hc.
    + apply Qeq_alt in Hc. lra.
    + apply Qlt_alt in Hc. lra.
    + lia.
  - destruct (Qcompare (y - inject_Z f) (1 # 2)); [destruct (Z.even f)|..]; lia.
Qed.

Section Bounds.
Context {E : Externals} {L : ExternalsLaws E}.

Lemma scaled_dimension (n m S : Z) :
  0 < n < 2 ^ 31 -> 0 < m < 2 ^ 31 -> 0 < S < 2 ^ 31 ->
  let q := (inject_Z n * inject_Z S / inject_Z m)%Q in
  let y := py_val (int_mul_float n (int_truediv S m)) in
  ((1 - eps) * q <= y /\ y <= (1 + eps) * q)%Q.
Proof.
  intros Hn Hm HS q y.
  pose proof (int_truediv_accurate S m HS Hm) as Hdiv.
  set (r := (inject_Z S / inject_Z m)%Q) in *.
  set (v := py_val (int_truediv S m)) in *.
  apply Qabs_Qle_condition in Hdiv.
  assert (Hmq : (0 < inject_Z m)%Q) by (rewrite <- (Zlt_Qlt 0); lia).
  assert (HSq : (1 <= inject_Z S)%Q) by (rewrite <- (Zle_Qle 1); lia).
  assert (HSq' : (inject_Z S <= inject_Z (2 ^ 31))%Q) by (rewrite <- Zle_Qle; lia).
  assert (Hmq' : (inject_Z m <= inject_Z (2 ^ 31))%Q) by (rewrite <- Zle_Qle; lia).
  assert (Hmq1 : (1 <= inject_Z m)%Q) by (rewrite <- (Zle_Qle 1); lia).
  assert (Hnq : (1 <= inject_Z n)%Q) by (rewrite <- (Zle_Qle 1); lia).
  assert (Hrm : (r * inject_Z m == inject_Z S)%Q).
  { unfold r. field. lra. }
  assert (Hr : (0 < r)%Q).
  { unfold r. apply Qlt_shift_div_l; lra. }
  set (u := unit_roundoff) in *.
  assert (Hu0 : (0 < u)%Q) by reflexivity.
  assert (Hu1 : (u <= 1 # 9007199254740992)%Q) by (unfold u, unit_roundoff; apply Qle_refl).
  assert (Hv : ((1 - u) * r <= v /\ v <= (1 + u) * r)%Q) by (split; lra).
  assert (Hrlo : (1 # 2147483648 <= r)%Q).
  { change (inject_Z (2 ^ 31)) with (2147483648 # 1)%Q in Hmq'. nra. }
  assert (Hrhi : (r <= 2147483648 # 1)%Q).
  { change (inject_Z (2 ^ 31)) with (2147483648 # 1)%Q in HSq'. nra. }
  assert (Hvlo : (1 # 2 ^ 64 <= v)%Q).
  { change (1 # 2 ^ 64)%Q with (1 # 18446744073709551616)%Q. nra. }
  assert (Hvhi : (v <= inject_Z (2 ^ 64))%Q).
  { change (inject_Z (2 ^ 64)) with (18446744073709551616 # 1)%Q. nra. }
  pose proof (int_mul_float_accurate n (int_truediv S m) Hn Hvlo Hvhi) as Hmul.
  fold v in Hmul. fold y in Hmul. apply Qabs_Qle_condition in Hmul. fold u in Hmul.
  assert (Hq : (q == inject_Z n * r)%Q) by (unfold q, r; field; lra).
  assert (Hy : ((1 - u) * (inject_Z n * v) <= y /\ y <= (1 + u) * (inject_Z n * v))%Q)
    by (split; lra).
  rewrite Hq. unfold eps. change (1 # 2 ^ 51)%Q with (1 # 2251799813685248)%Q.
  set (nq := inject_Z n) in *.
  clearbody nq v y r u. clear - Hu0 Hu1 Hv Hy Hr Hnq.
  assert (Hnr : (0 < nq * r)%Q) by nra.
  assert (Hnv1 : (nq * v <= (1 + u) * (nq * r))%Q) by nra.
  assert (Hnv2 : ((1 - u) * (nq * r) <= nq * v)%Q) by nra.
  set (p := (nq * r)%Q) in *. set (t := (nq * v)%Q) in *. clearbody p t.
  split; nra.
Qed.

(** [int(round(n * (S / m)))] against an integer bound on [n * S / m]. *)
Lemma scaled_round_le (n m S z : Z) :
  0 < n < 2 ^ 31 -> 0 < m < 2 ^ 31 -> 0 < S < 2 ^ 31 ->
  0 <= z <= 2 ^ 31 -> n * S <= z * m ->
  py_round (int_mul_float n (int_truediv S m)) <= z.
Proof.
  intros Hn Hm HS Hz Hle. rewrite py_round_nearest.
  apply round_half_even_le.
  destruct (scaled_dimension n m S Hn Hm HS) as [_ Hy].
  set (y := py_val (int_mul_float n (int_truediv S m))) in *.
  set (q := (inject_Z n * inject_Z S / inject_Z m)%Q) in *.
  assert (Hmq : (0 < inject_Z m)%Q) by (rewrite <- (Zlt_Qlt 0); lia).
  assert (Hq : (q <= inject_Z z)%Q).
  { unfold q. apply Qle_shift_div_r; [assumption|].
    rewrite <- !inject_Z_mult, <- Zle_Qle. lia. }
  assert (Hz0 : (0 <= inject_Z z)%Q) by (rewrite <- (Zle_Qle 0); lia).
  assert (Hz1 : (inject_Z z <= 2147483648 # 1)%Q)
    by (change (2147483648 # 1)%Q with (inject_Z (2 ^ 31)); rewrite <- Zle_Qle; lia).
  unfold eps in Hy. change (1 # 2 ^ 51)%Q with (1 # 2251799813685248)%Q in Hy.
  clearbody y q. nra.
Qed.

Lemma scaled_round_ge (n m S z : Z) :
  0 < n < 2 ^ 31 -> 0 < m < 2 ^ 31 -> 0 < S < 2 ^ 31 ->
  0 <= z <= 2 ^ 31 -> z * m <= n * S ->
  z <= py_round (int_mul_float n (int_truediv S m)).
Proof.
  intros Hn Hm HS Hz Hle. rewrite py_round_nearest.
  apply round_half_even_ge.
  destruct (scaled_dimension n m S Hn Hm HS) as [Hy _].
  set (y := py_val (int_mul_float n (int_truediv S m))) in *.
  set (q := (inject_Z n * inject_Z S / inject_Z m)%Q) in *.
  assert (Hmq : (0 < inject_Z m)%Q) by (rewrite <- (Zlt_Qlt 0); lia).
  assert (Hq : (inject_Z z <= q)%Q).
  { unfold q. apply Qle_shift_div_l; [assumption|].
    rewrite <- !inject_Z_mult, <- Zle_Qle. lia. }
  assert (Hz0 : (0 <= inject_Z z)%Q) by (rewrite <- (Zle_Qle 0); lia).
  assert (Hz1 : (inject_Z z <= 2147483648 # 1)%Q)
    by (change (2147483648 # 1)%Q with (inject_Z (2 ^ 31)); rewrite <- Zle_Qle; lia).
  unfold eps in Hy. change (1 # 2 ^ 51)%Q with (1 # 2251799813685248)%Q in Hy.
  clearbody y q. nra.
Qed.

(** Below one half the dimension rounds to 0. *)
Lemma scaled_round_zero (n m S : Z) :
  0 < n < 2 ^ 31 -> 0 < m < 2 ^ 31 -> 0 < S < 2 ^ 31 ->
  2 * (n * S) < m ->
  py_round (int_mul_float n (int_truediv S m)) = 0.
Proof.
  intros Hn Hm HS Hlt.
  assert (Hge : 0 <= py_round (int_mul_float n (int_truediv S m))).
  { apply scaled_round_ge; (assumption || lia). }
  assert (Hle : py_round (int_mul_float n (int_truediv S m)) <= 0); [|lia].
  rewrite py_round_nearest. apply round_half_even_le.
  destruct (scaled_dimension n m S Hn Hm HS) as [_ Hy].
  set (y := py_val (int_mul_float n (int_truediv S m))) in *.
  set (q := (inject_Z n * inject_Z S / inject_Z m)%Q) in *.
  assert (Hmq : (1 <= inject_Z m)%Q) by (rewrite <- (Zle_Qle 1); lia).
  assert (Hmq' : (inject_Z m <= 2147483648 # 1)%Q)
    by (change (2147483648 # 1)%Q with (inject_Z (2 ^ 31)); rewrite <- Zle_Qle; lia).
  assert (Hq : ((2 # 1) * q * inject_Z m <= inject_Z m - 1)%Q).
  { assert (Hqm : (q * inject_Z m == inject_Z (n * S))%Q).
    { unfold q. rewrite inject_Z_mult. field. lra. }
    assert (Hint : (inject_Z (2 * (n * S) + 1) <= inject_Z m)%Q)
      by (rewrite <- Zle_Qle; lia).
    rewrite inject_Z_plus, inject_Z_mult in Hint.
    change (inject_Z 2) with (2 # 1)%Q in Hint.
    change (inject_Z 1) with 1%Q in Hint. nra. }
  unfold eps in Hy. change (1 # 2 ^ 51)%Q with (1 # 2251799813685248)%Q in Hy.
  change (inject_Z 0) with 0%Q.
  set (mq := inject_Z m) in *. clearbody y q mq. nra.
Qed.


(** Above one half the dimension rounds to at least 1. *)
Lemma scaled_round_pos (n m S : Z) :
  0 < n < 2 ^ 31 -> 0 < m < 2 ^ 31 -> 0 < S < 2 ^ 31 ->
  m < 2 * (n * S) ->
  1 <= py_round (int_mul_float n (int_truediv S m)).
Proof.
  intros Hn Hm HS Hlt. rewrite py_round_nearest. apply round_half_even_ge.
  destruct (scaled_dimension n m S Hn Hm HS) as [Hy _].
  set (y := py_val (int_mul_float n (int_truediv S m))) in *.
  set (q := (inject_Z n * inject_Z S / inject_Z m)%Q) in *.
  assert (Hmq : (1 <= inject_Z m)%Q) by (rewrite <- (Zle_Qle 1); lia).
  assert (Hmq' : (inject_Z m <= 2147483648 # 1)%Q)
    by (change (2147483648 # 1)%Q with (inject_Z (2 ^ 31)); rewrite <- Zle_Qle; lia).
  assert (Hq : (inject_Z m + 1 <= (2 # 1) * q * inject_Z m)%Q).
  { assert (Hqm : (q * inject_Z m == inject_Z (n * S))%Q).
    { unfold q. rewrite inject_Z_mult. field. lra. }
    assert (Hint : (inject_Z (m + 1) <= inject_Z (2 * (n * S)))%Q)
      by (rewrite <- Zle_Qle; lia).
    rewrite inject_Z_plus, inject_Z_mult in Hint.
    change (inject_Z 2) with (2 # 1)%Q in Hint.
    change (inject_Z 1) with 1%Q in Hint. nra. }
  unfold eps in Hy. change (1 # 2 ^ 51)%Q with (1 # 2251799813685248)%Q in Hy.
  change (inject_Z 1) with 1%Q.
  set (mq := inject_Z m) in *. clearbody y q mq. nra.
Qed.

End Bounds.

(** * The exact instance satisfies the laws *)

Lemma nearest_sample_shape (src : img3) (h w : nat) :
  has_shape (nearest_sample src h w) h w.
Proof.
  unfold nearest_sample, has_shape. rewrite length_map, length_seq.
  split; [reflexivity|]. apply Forall_map. apply List.Forall_forall.
  intros i _. now rewrite length_map, length_seq.
Qed.

Lemma nearest_sample_In (src : img3) (sh sw h w : nat) (p : pixel) :
  has_shape src sh sw -> (0 < sh)%nat -> (0 < sw)%nat ->
  In p (concat (nearest_sample src h w)) -> In p (concat src).
Proof.
  intros Hshape Hsh Hsw Hin.
  destruct (shape_dims src sh sw Hshape Hsh) as [_ Hwidth].
  destruct Hshape as [Hlen Hrows].
  unfold nearest_sample in Hin. rewrite Hwidth, Nat2Z.id, Hlen in Hin.
  apply in_concat in Hin as (r & Hr & Hp).
  apply in_map_iff in Hr as (i & <- & Hi). apply in_seq in Hi.
  apply in_map_iff in Hp as (j & <- & Hj). apply in_seq in Hj.
  assert (Hi' : (i * sh / h < sh)%nat)
    by (apply Nat.Div0.div_lt_upper_bound; nia).
  assert (Hj' : (j * sw / w < sw)%nat)
    by (apply Nat.Div0.div_lt_upper_bound; nia).
  assert (Hrow : In (nth (i * sh / h) src []) src) by (apply nth_In; lia).
  apply in_concat. exists (nth (i * sh / h) src []). split; [assumption|].
  apply nth_In. rewrite List.Forall_forall in Hrows. now rewrite (Hrows _ Hrow).
Qed.

Lemma exact_truediv_accurate (a b : Z) :
  0 < a < 2 ^ 31 -> 0 < b < 2 ^ 31 ->
  (Qabs (inject_Z a / inject_Z b - inject_Z a / inject_Z b)
   <= unit_roundoff * (inject_Z a / inject_Z b))%Q.
Proof.
  intros Ha Hb.
  assert (Hz : (inject_Z a / inject_Z b - inject_Z a / inject_Z b == 0)%Q) by ring.
  rewrite Hz. change (Qabs 0) with 0%Q.
  assert (Haq : (0 < inject_Z a)%Q) by (rewrite <- (Zlt_Qlt 0); lia).
  assert (Hbq : (0 < inject_Z b)%Q) by (rewrite <- (Zlt_Qlt 0); lia).
  apply Qmult_le_0_compat; [discriminate|].
  apply Qle_shift_div_l; lra.
Qed.

Lemma exact_mul_accurate (n : Z) (x : Q) :
  0 < n < 2 ^ 31 ->
  (1 # (2 ^ 64) <= x)%Q -> (x <= inject_Z (2 ^ 64))%Q ->
  (Qabs (inject_Z n * x - inject_Z n * x) <= unit_roundoff * (inject_Z n * x))%Q.
Proof.
  intros Hn Hlo _.
  assert (Hz : (inject_Z n * x - inject_Z n * x == 0)%Q) by ring.
  rewrite Hz. change (Qabs 0) with 0%Q.
  assert (Hnq : (0 < inject_Z n)%Q) by (rewrite <- (Zlt_Qlt 0); lia).
  assert (Hx : (0 < x)%Q).
  { eapply Qlt_le_trans; [|exact Hlo]. reflexivity. }
  apply Qmult_le_0_compat; [discriminate|].
  apply Qmult_le_0_compat; lra.
Qed.

#[export] Instance exact_laws : ExternalsLaws exact_externals := {|
  py_val := fun x : @pyfloat exact_externals => (x : Q);
  int_truediv_accurate := exact_truediv_accurate;
  int_mul_float_accurate := exact_mul_accurate;
  py_round_nearest := fun x => eq_refl;
  interpolate_shape := fun _ => nearest_sample_shape;
  nearest_picks := nearest_sample_In
|}.

(** * PadCrop: the resize branch *)

Section PadCropResize.
Context {E : Externals}.

(** Lines 100-105 when one side is at least [desired_size]. *)
Lemma resize_to_fit_large (image mask : img3) (S : Z) (h w : nat) :
  has_shape image h w -> (0 < h)%nat -> (0 < w)%nat ->
  S <= Z.of_nat h \/ S <= Z.of_nat w ->
  let scale := int_truediv S (Z.max (Z.of_nat h) (Z.of_nat w)) in
  let nh := py_round (int_mul_float (Z.of_nat h) scale) in
  let nw := py_round (int_mul_float (Z.of_nat w) scale) in
  TopLeftPad.resize_to_fit image mask S =
  if (nw <=? 0) || (nh <=? 0) then Err (CvError "resize: empty dsize")
  else if size0 mask then Err (CvError "resize: empty source")
  else Ok (interpolate INTER_AREA image (Z.to_nat nh) (Z.to_nat nw),
           interpolate INTER_NEAREST mask (Z.to_nat nh) (Z.to_nat nw),
           (nh, nw)).
Proof.
  intros Hshape Hh Hw HS scale nh nw.
  destruct (shape_dims image h w Hshape Hh) as [Hhi Hwi].
  unfold TopLeftPad.resize_to_fit. rewrite Hhi, Hwi.
  assert (Hbranch : (S <=? Z.of_nat h) || (S <=? Z.of_nat w) = true).
  { apply orb_true_iff. rewrite !Z.leb_le. exact HS. }
  rewrite Hbranch. unfold py_truediv.
  destruct (Z.eqb_spec (Z.max (Z.of_nat h) (Z.of_nat w)) 0); [lia|].
  simpl. fold scale. fold nh. fold nw. unfold cv2_resize.
  rewrite (shape_size0 image h w Hshape Hh Hw).
  destruct ((nw <=? 0) || (nh <=? 0)); simpl; [reflexivity|].
  destruct (size0 mask); reflexivity.
Qed.

Context {L : ExternalsLaws E}.

Lemma fitted_dimensions (H W S : Z) :
  0 < H < 2 ^ 31 -> 0 < W < 2 ^ 31 -> 0 < S < 2 ^ 31 ->
  let scale := int_truediv S (Z.max H W) in
  let nh := py_round (int_mul_float H scale) in
  let nw := py_round (int_mul_float W scale) in
  0 <= nh <= S /\ 0 <= nw <= S /\ Z.max nh nw = S.
Proof.
  intros HH HW HS scale nh nw.
  assert (HM : 0 < Z.max H W < 2 ^ 31) by lia.
  assert (Hnh : 0 <= nh <= S).
  { split; [apply scaled_round_ge|apply scaled_round_le]; (assumption || nia). }
  assert (Hnw : 0 <= nw <= S).
  { split; [apply scaled_round_ge|apply scaled_round_le]; (assumption || nia). }
  split; [assumption|]. split; [assumption|].
  destruct (Z.max_spec H W) as [[Hlt Hmax]|[Hle Hmax]].
  - assert (S <= nw); [|lia].
    unfold nw, scale. rewrite Hmax. apply scaled_round_ge; (assumption || lia).
  - assert (S <= nh); [|lia].
    unfold nh, scale. rewrite Hmax. apply scaled_round_ge; (assumption || lia).
Qed.

End PadCropResize.

(** X12.  The content of PadCrop after a resize.  For an h x w image with
    h, w < 2^31, 0 < S < 2^31 and one side at least S, when the resize of
    the image and of the mask succeeds the new dimensions are positive, the
    longer one is exactly S and the other at most S, and the resized image
    and mask both have these dimensions.  The float arithmetic of
    [scale = desired_size / max(height, width)] and [round] is taken with
    the relative error of binary64. *)
Theorem pad_crop_resize_fits {E : Externals} {L : ExternalsLaws E}
    (image mask image' mask' : img3) (S nh nw : Z) (h w : nat) :
  has_shape image h w -> (0 < h)%nat -> (0 < w)%nat ->
  Z.of_nat h < 2 ^ 31 -> Z.of_nat w < 2 ^ 31 -> 0 < S < 2 ^ 31 ->
  S <= Z.of_nat h \/ S <= Z.of_nat w ->
  TopLeftPad.resize_to_fit image mask S = Ok (image', mask', (nh, nw)) ->
  0 < nh <= S /\ 0 < nw <= S /\ Z.max nh nw = S
  /\ has_shape image' (Z.to_nat nh) (Z.to_nat nw)
  /\ has_shape mask' (Z.to_nat nh) (Z.to_nat nw).
Proof.
  intros Hshape Hh Hw Hh31 Hw31 HS Hbranch Hfit.
  rewrite (resize_to_fit_large image mask S h w Hshape Hh Hw Hbranch) in Hfit.
  destruct (fitted_dimensions (Z.of_nat h) (Z.of_nat w) S
              ltac:(lia) ltac:(lia) HS) as (Hnh & Hnw & Hmax).
  cbv zeta in Hfit, Hnh, Hnw, Hmax.
  set (nh0 := py_round (int_mul_float (Z.of_nat h)
                (int_truediv S (Z.max (Z.of_nat h) (Z.of_nat w))))) in *.
  set (nw0 := py_round (int_mul_float (Z.of_nat w)
                (int_truediv S (Z.max (Z.of_nat h) (Z.of_nat w))))) in *.
  destruct (Z.leb_spec nw0 0) as [|Hwpos]; [discriminate|].
  destruct (Z.leb_spec nh0 0) as [|Hhpos]; [discriminate|]. simpl in Hfit.
  destruct (size0 mask); [discriminate|].
  injection Hfit as <- <- <- <-.
  repeat split; try lia; apply interpolate_shape.
Qed.

Lemma pad_crop_resize_fits_witness :
  0 < 2 <= 2 /\ 0 < 1 <= 2 /\ Z.max 2 1 = 2
  /\ has_shape (nearest_sample (repeat (repeat (9, 9, 9) 2) 4) 2 1)
       (Z.to_nat 2) (Z.to_nat 1)
  /\ has_shape (nearest_sample (repeat (repeat (0, 0, 0) 2) 4) 2 1)
       (Z.to_nat 2) (Z.to_nat 1).
Proof.
  apply (pad_crop_resize_fits (E := exact_externals) (L := exact_laws)
           (repeat (repeat (9, 9, 9) 2) 4) (repeat (repeat (0, 0, 0) 2) 4)
           _ _ 2 2 1 4 2).
  - split; [reflexivity|repeat constructor].
  - lia.
  - lia.
  - vm_compute; reflexivity.
  - vm_compute; reflexivity.
  - lia.
  - left. vm_compute; discriminate.
  - reflexivity.
Defined.

(** X13.  PadCrop fails on a thin image.  When the longer side of the
    image is at least S and more than 2 * S times the shorter one, the
    shorter side scales to 0 pixels and [cv2.resize] raises; [process_data]
    ends with that cv2.error whatever the mask is (sizes below 2^31, float
    arithmetic with the relative error of binary64). *)
Theorem pad_crop_thin_image_fails {E : Externals} {L : ExternalsLaws E}
    (filename : string) (raw : raw_image) (mask : img3) (S : Z) (h w : nat) :
  has_shape (TopLeftPad.ensure_bgr raw) h w -> (0 < h)%nat -> (0 < w)%nat ->
  Z.of_nat h < 2 ^ 31 -> Z.of_nat w < 2 ^ 31 -> 0 < S < 2 ^ 31 ->
  S <= Z.max (Z.of_nat h) (Z.of_nat w) ->
  2 * (Z.min (Z.of_nat h) (Z.of_nat w) * S) < Z.max (Z.of_nat h) (Z.of_nat w) ->
  TopLeftPad.process_data filename (Some raw) (Some mask) S
  = Err (CvError "resize: empty dsize").
Proof.
  intros Hshape Hh Hw Hh31 Hw31 HS Hbig Hthin.
  unfold TopLeftPad.process_data.
  rewrite (resize_to_fit_large _ mask S h w Hshape Hh Hw ltac:(lia)).
  cbv zeta.
  assert (Hzero : py_round (int_mul_float (Z.of_nat w)
                             (int_truediv S (Z.max (Z.of_nat h) (Z.of_nat w)))) = 0
                  \/ py_round (int_mul_float (Z.of_nat h)
                                (int_truediv S (Z.max (Z.of_nat h) (Z.of_nat w)))) = 0).
  { destruct (Z.le_ge_cases (Z.of_nat h) (Z.of_nat w)).
    - right. rewrite Z.min_l in Hthin by assumption.
      apply scaled_round_zero; lia.
    - left. rewrite Z.min_r in Hthin by assumption.
      apply scaled_round_zero; lia. }
  destruct Hzero as [-> | ->]; simpl; [reflexivity|].
  now rewrite orb_true_r.
Qed.

Lemma pad_crop_thin_image_fails_witness :
  TopLeftPad.process_data (H := exact_externals) "a.png"
    (Some (Color3 (repeat (repeat (9, 9, 9) 1) 9))) (Some []) 2
  = Err (CvError "resize: empty dsize").
Proof.
  apply (pad_crop_thin_image_fails (E := exact_externals) (L := exact_laws)
           "a.png" (Color3 (repeat (repeat (9, 9, 9) 1) 9)) [] 2 9 1).
  - split; [reflexivity|repeat constructor].
  - lia.
  - lia.
  - vm_compute; reflexivity.
  - vm_compute; reflexivity.
  - lia.
  - vm_compute; discriminate.
  - vm_compute; reflexivity.
Defined.

(** X14.  PadCrop with a resize.  For an h x w image with one side at least
    S and the longer side less than 2 * S times the shorter one, and a
    non-empty rectangular mask whose colours are all in the colour map,
    [process_data] returns one pair: the normalised area-resized image and
    the decoded nearest-neighbour-resized mask, each in the top-left corner
    of an S x S canvas (normalised black, class 0), with the longer content
    side equal to S. *)
Theorem pad_crop_with_resize {E : Externals} {L : ExternalsLaws E}
    (filename : string) (raw : raw_image) (mask : img3) (S : Z) (h w mh mw : nat) :
  has_shape (TopLeftPad.ensure_bgr raw) h w -> (0 < h)%nat -> (0 < w)%nat ->
  has_shape mask mh mw -> (0 < mh)%nat -> (0 < mw)%nat ->
  Z.of_nat h < 2 ^ 31 -> Z.of_nat w < 2 ^ 31 -> 0 < S < 2 ^ 31 ->
  S <= Z.max (Z.of_nat h) (Z.of_nat w) ->
  Z.max (Z.of_nat h) (Z.of_nat w) < 2 * (Z.min (Z.of_nat h) (Z.of_nat w) * S) ->
  all_known_b mask = true ->
  let scale := int_truediv S (Z.max (Z.of_nat h) (Z.of_nat w)) in
  let nh := Z.to_nat (py_round (int_mul_float (Z.of_nat h) scale)) in
  let nw := Z.to_nat (py_round (int_mul_float (Z.of_nat w) scale)) in
  TopLeftPad.process_data filename (Some raw) (Some mask) S
  = Ok ([pad_top_left (normalize_pixel (0, 0, 0)) (Z.to_nat S)
           (map2 normalize_pixel
              (interpolate INTER_AREA (TopLeftPad.ensure_bgr raw) nh nw))],
        [pad_top_left 0 (Z.to_nat S)
           (map2 color_class (interpolate INTER_NEAREST mask nh nw))])
  /\ (0 < nh)%nat /\ (0 < nw)%nat /\ Nat.max nh nw = Z.to_nat S.
Proof.
  intros Hshape Hh Hw Hmask Hmh Hmw Hh31 Hw31 HS Hbig Hwide Hall scale nh nw.
  destruct (fitted_dimensions (Z.of_nat h) (Z.of_nat w) S
              ltac:(lia) ltac:(lia) HS) as (Hnh & Hnw & Hmax).
  cbv zeta in Hnh, Hnw, Hmax. fold scale in Hnh, Hnw, Hmax.
  assert (Hmin : Z.min (Z.of_nat h) (Z.of_nat w) * S <= Z.of_nat h * S
                 /\ Z.min (Z.of_nat h) (Z.of_nat w) * S <= Z.of_nat w * S)
    by (split; apply Z.mul_le_mono_nonneg_r; lia).
  assert (Hhpos : 1 <= py_round (int_mul_float (Z.of_nat h) scale))
    by (apply scaled_round_pos; lia).
  assert (Hwpos : 1 <= py_round (int_mul_float (Z.of_nat w) scale))
    by (apply scaled_round_pos; lia).
  split; [|unfold nh, nw; lia].
  assert (Hknown : all_known_b (interpolate INTER_NEAREST mask nh nw) = true).
  { apply all_known_b_forall. intros p Hp.
    rewrite all_known_b_forall in Hall. apply Hall.
    eapply nearest_picks; eauto. }
  rewrite (process_data_fitted filename raw mask S
             (interpolate INTER_AREA (TopLeftPad.ensure_bgr raw) nh nw)
             (interpolate INTER_NEAREST mask nh nw) nh nw).
  - now rewrite Hknown.
  - rewrite (resize_to_fit_large _ mask S h w Hshape Hh Hw ltac:(lia)).
    cbv zeta. fold scale.
    destruct (Z.leb_spec (py_round (int_mul_float (Z.of_nat w) scale)) 0); [lia|].
    destruct (Z.leb_spec (py_round (int_mul_float (Z.of_nat h) scale)) 0); [lia|].
    simpl. rewrite (shape_size0 mask mh mw Hmask Hmh Hmw).
    unfold nh, nw. now rewrite !Z2Nat.id by lia.
  - apply interpolate_shape.
  - apply interpolate_shape.
  - unfold nh. lia.
  - unfold nw. lia.
  - lia.
Qed.

Lemma pad_crop_with_resize_witness :
  TopLeftPad.process_data (H := exact_externals) "a.png"
    (Some (Color3 (repeat (repeat (9, 9, 9) 2) 4)))
    (Some (repeat (repeat (255, 255, 255) 2) 4)) 2
  = Ok ([pad_top_left (normalize_pixel (0, 0, 0)) 2
           (map2 normalize_pixel (repeat (repeat (9, 9, 9) 1) 2))],
        [[[1; 0]; [1; 0]]]).
Proof.
  apply (pad_crop_with_resize (E := exact_externals) (L := exact_laws) "a.png"
           (Color3 (repeat (repeat (9, 9, 9) 2) 4))
           (repeat (repeat (255, 255, 255) 2) 4) 2 4 2 4 2).
  - split; [reflexivity|repeat constructor].
  - lia.
  - lia.
  - split; [reflexivity|repeat constructor].
  - lia.
  - lia.
  - vm_compute; reflexivity.
  - vm_compute; reflexivity.
  - lia.
  - vm_compute; discriminate.
  - vm_compute; reflexivity.
  - reflexivity.
Defined.

(** * The canvas keeps its shape *)

Lemma broadcast_axis_length {A : Type} (n : nat) (l l' : list A) :
  broadcast_axis n l = Some l' -> length l' = n.
Proof.
  unfold broadcast_axis. destruct (Nat.eqb_spec (length l) n) as [Heq|Hne].
  - now intros [= <-].
  - destruct l as [|x [|y l]]; try discriminate.
    intros [= <-]. apply repeat_length.
Qed.

Lemma broadcast_rows_shape {A : Type} (n : nat) (rows rows' : array2 A) :
  broadcast_rows n rows = Some rows' ->
  length rows' = length rows /\ Forall (fun r => length r = n) rows'.
Proof.
  revert rows'. induction rows as [|r rows IH]; simpl; intros rows'.
  - intros [= <-]. split; [reflexivity|constructor].
  - destruct (broadcast_axis n r) as [r'|] eqn:Hr; [|discriminate].
    destruct (broadcast_rows n rows) as [rows''|]; [|discriminate].
    intros [= <-]. destruct (IH rows'' eq_refl) as [Hlen Hall].
    split; [simpl; now rewrite Hlen|].
    constructor; [now apply broadcast_axis_length in Hr|assumption].
Qed.

Lemma zip_with_shape {A : Type} (rw n : nat) (rows padded : array2 A) :
  (rw <= n)%nat -> length rows = length padded ->
  Forall (fun r => length r = rw) rows -> Forall (fun r => length r = n) padded ->
  has_shape (zip_with (fun v p => v ++ skipn rw p) rows padded) (length padded) n.
Proof.
  intros Hrw. revert padded. induction rows as [|v rows IH]; intros [|p padded];
    simpl; try discriminate; intros Hlen Hrows Hpad.
  - split; [reflexivity|constructor].
  - destruct (IH padded) as [Hl Hf];
      [lia|now apply Forall_inv_tail in Hrows|now apply Forall_inv_tail in Hpad|].
    split; [simpl; now rewrite Hl|]. constructor; [|assumption].
    rewrite length_app, length_skipn.
    apply Forall_inv in Hrows. apply Forall_inv in Hpad. lia.
Qed.

Lemma assign_top_left_shape {A : Type} (padded value out : array2 A) (n : nat)
    (new_height new_width : Z) :
  has_shape padded n n ->
  assign_top_left padded new_height new_width value = Ok out ->
  has_shape out n n.
Proof.
  intros [Hlen Hrows]. unfold assign_top_left.
  set (rh := Nat.min (Z.to_nat new_height) (length padded)).
  set (rw := Nat.min (Z.to_nat new_width) (Z.to_nat (width padded))).
  destruct (broadcast_axis rh value) as [rows|] eqn:Hb; [|discriminate].
  destruct (broadcast_rows rw rows) as [rows'|] eqn:Hbr; [|discriminate].
  intros [= <-].
  apply broadcast_axis_length in Hb.
  apply broadcast_rows_shape in Hbr as [Hlen' Hall'].
  assert (Hrw : (rw <= n)%nat).
  { unfold rw, width. destruct padded as [|p padded]; simpl; [lia|].
    apply Forall_inv in Hrows. lia. }
  assert (Hfirst : has_shape (zip_with (fun v p => v ++ skipn rw p) rows'
                                (firstn rh padded)) (length (firstn rh padded)) n).
  { apply zip_with_shape; try assumption.
    - rewrite Hlen', Hb, length_firstn. unfold rh. lia.
    - apply List.Forall_forall. intros r Hr. rewrite List.Forall_forall in Hrows.
      apply Hrows. rewrite <- (firstn_skipn rh padded). apply in_or_app. now left. }
  destruct Hfirst as [Hl Hf]. split.
  - rewrite length_app, Hl, length_firstn, length_skipn. lia.
  - apply Forall_app. split; [assumption|].
    apply List.Forall_forall. intros r Hr. rewrite List.Forall_forall in Hrows.
    apply Hrows. rewrite <- (firstn_skipn rh padded). apply in_or_app. now right.
Qed.

Lemma np_zeros_shape {A : Type} (zero : A) (n : Z) (canvas : array2 A) :
  np_zeros zero n n = Ok canvas -> 0 <= n /\ has_shape canvas (Z.to_nat n) (Z.to_nat n).
Proof.
  unfold np_zeros. destruct (Z.ltb_spec n 0); simpl; [discriminate|].
  intros [= <-]. split; [assumption|]. split; [apply repeat_length|].
  apply List.Forall_forall. intros r Hr. apply repeat_spec in Hr. subst r.
  apply repeat_length.
Qed.

Lemma color_class_range (mask : img3) :
  Forall (Forall (fun o => o = 0 \/ o = 1)) (map2 color_class mask).
Proof.
  unfold map2. apply Forall_map. apply List.Forall_forall. intros r _.
  apply Forall_map. apply List.Forall_forall. intros p _.
  apply color_class_values.
Qed.

(** X15.  The PadCrop invariant.  Whenever [TopLeftPad.process_data]
    returns, it returns exactly one image and one mask, both S x S with
    S >= 0, and the mask holds only the class indices 0 and 1 - whatever
    the size of the input and whichever branch was taken. *)
Theorem pad_crop_returns_one_square_pair `{E : Externals} (filename : string)
    (image : option raw_image) (mask : option img3) (S : Z)
    (images : list (array2 f32pixel)) (masks : list (array2 Z)) :
  TopLeftPad.process_data filename image mask S = Ok (images, masks) ->
  0 <= S
  /\ exists processed_image processed_mask,
       images = [processed_image] /\ masks = [processed_mask]
       /\ has_shape processed_image (Z.to_nat S) (Z.to_nat S)
       /\ has_shape processed_mask (Z.to_nat S) (Z.to_nat S)
       /\ Forall (Forall (fun o => o = 0 \/ o = 1)) processed_mask.
Proof.
  unfold TopLeftPad.process_data.
  destruct image as [image|]; [|discriminate].
  destruct mask as [mask|]; [|discriminate].
  destruct (TopLeftPad.resize_to_fit (TopLeftPad.ensure_bgr image) mask S)
    as [[[image' mask'] [nh nw]]|]; simpl; [|discriminate].
  destruct (np_zeros (0, 0, 0) S S) as [canvas|] eqn:Hcanvas; simpl; [|discriminate].
  apply np_zeros_shape in Hcanvas as [HS Hcanvas].
  destruct (assign_top_left canvas nh nw image') as [padded_image|] eqn:Hpi;
    simpl; [|discriminate].
  destruct (assign_top_left canvas nh nw mask') as [padded_mask|] eqn:Hpm;
    simpl; [|discriminate].
  apply assign_top_left_shape with (n := Z.to_nat S) in Hpi; [|assumption].
  apply assign_top_left_shape with (n := Z.to_nat S) in Hpm; [|assumption].
  rewrite TopLeftPad_apply_color_map_eq.
  destruct (all_known_b padded_mask); simpl; [|discriminate].
  intros [= <- <-]. split; [assumption|].
  exists (normalize_image padded_image), (map2 color_class padded_mask).
  split; [reflexivity|]. split; [reflexivity|].
  rewrite normalize_image_eq.
  split; [now apply map2_shape|]. split; [now apply map2_shape|].
  apply color_class_range.
Qed.

Lemma pad_crop_returns_one_square_pair_witness :
  0 <= 3
  /\ exists processed_image processed_mask,
       [pad_top_left (normalize_pixel (H := exact_externals) (0, 0, 0)) 3
          (map2 normalize_pixel [[(0, 0, 0); (255, 255, 255)]])]
       = [processed_image]
       /\ [[[1; 0; 0]; [0; 0; 0]; [0; 0; 0]]] = [processed_mask]
       /\ has_shape processed_image (Z.to_nat 3) (Z.to_nat 3)
       /\ has_shape processed_mask (Z.to_nat 3) (Z.to_nat 3)
       /\ Forall (Forall (fun o => o = 0 \/ o = 1)) processed_mask.
Proof.
  apply (pad_crop_returns_one_square_pair (E := exact_externals) "a.png"
           (Some (Gray [[0; 255]])) (Some [[(255, 255, 255); (0, 0, 0)]]) 3).
  reflexivity.
Defined.

(** * ResizeCrop: [iw_dataset.process_data] *)

Lemma gather_shape `{E : Externals} {A : Type} (fill : A) (input : array2 A)
    (out_h out_w : nat) :
  has_shape (gather fill input out_h out_w) out_h out_w.
Proof.
  unfold gather, has_shape. rewrite length_map, length_seq.
  split; [reflexivity|]. apply Forall_map. apply List.Forall_forall.
  intros i _. now rewrite length_map, length_seq.
Qed.

Lemma gather_In `{E : Externals} {A : Type} (fill : A) (input : array2 A)
    (out_h out_w : nat) (x : A) :
  In x (concat (gather fill input out_h out_w)) -> In x (concat input) \/ x = fill.
Proof.
  unfold gather. intros Hx. apply in_concat in Hx as (r & Hr & Hx).
  apply in_map_iff in Hr as (i & <- & _).
  apply in_map_iff in Hx as (j & <- & _).
  set (row := nth (zoom_source (length input) out_h i) input []).
  destruct (nth_in_or_default (zoom_source (Z.to_nat (width input)) out_w j) row fill)
    as [Hin|Heq]; [|now right].
  destruct (nth_in_or_default (zoom_source (length input) out_h i) input [])
    as [Hrow|Hnil].
  - left. apply in_concat. exists row. split; assumption.
  - fold row in Hnil. rewrite Hnil in Hin. contradiction.
Qed.

Lemma width_map2 {A B : Type} (f : A -> B) (a : array2 A) :
  width (map2 f a) = width a.
Proof. destruct a as [|r a]; simpl; [reflexivity|]. now rewrite length_map. Qed.

(** Resampling by index commutes with a per-pixel map. *)
Lemma gather_map2 `{E : Externals} {A B : Type} (f : A -> B) (fill : A)
    (input : array2 A) (out_h out_w : nat) :
  gather (f fill) (map2 f input) out_h out_w = map2 f (gather fill input out_h out_w).
Proof.
  unfold gather. rewrite width_map2. unfold map2.
  rewrite length_map, map_map. apply map_ext. intros i.
  rewrite map_map. apply map_ext. intros j.
  change (@nil B) with (map f []).
  now rewrite !map_nth.
Qed.

Section ResizeCrop.
Context {E : Externals}.

Lemma luminance_class_eq (mask : img3) :
  map2 (fun p => if 128 <? rgb2gray p then 1 else 0) (COLOR_BGR2RGB mask)
  = map2 luminance_class mask.
Proof.
  unfold COLOR_BGR2RGB. rewrite map2_map2. apply map2_ext_in.
  intros [[b g] r] _. reflexivity.
Qed.

Lemma process_image_color (a : img3) (S : Z) :
  size0 a = false -> 0 < S ->
  IWDataset.process_image (Color3 a) S
  = Ok (map2 normalize_pixel (interpolate INTER_LINEAR a (Z.to_nat S) (Z.to_nat S))).
Proof.
  intros Hsz HS. unfold IWDataset.process_image, cv2_resize. rewrite Hsz.
  destruct (Z.leb_spec S 0); [lia|]. simpl. now rewrite normalize_image_eq.
Qed.

Context {L : ExternalsLaws E}.

Lemma zoom_dimension (n S : Z) :
  0 < n < 2 ^ 31 -> 0 < S < 2 ^ 31 ->
  py_round (int_mul_float n (int_truediv S n)) = S.
Proof.
  intros Hn HS. apply Z.le_antisymm.
  - apply scaled_round_le; (assumption || lia).
  - apply scaled_round_ge; (assumption || lia).
Qed.

Lemma process_mask_eq (mask_path : string) (mask : img3) (S : Z) (h w : nat) :
  has_shape mask h w -> (0 < h)%nat -> (0 < w)%nat ->
  Z.of_nat h < 2 ^ 31 -> Z.of_nat w < 2 ^ 31 -> 0 < S < 2 ^ 31 ->
  IWDataset.process_mask mask_path mask S
  = Ok (gather 0 (map2 luminance_class mask) (Z.to_nat S) (Z.to_nat S)).
Proof.
  intros Hshape Hh Hw Hh31 Hw31 HS. unfold IWDataset.process_mask.
  rewrite decode_binarize, size0_COLOR_BGR2RGB.
  rewrite (shape_size0 mask h w Hshape Hh Hw). simpl.
  rewrite luminance_class_eq.
  destruct (shape_dims _ h w (map2_shape luminance_class mask h w Hshape) Hh)
    as [Hhi Hwi].
  unfold py_truediv. rewrite Hhi, Hwi.
  destruct (Z.eqb_spec (Z.of_nat h) 0); [lia|].
  destruct (Z.eqb_spec (Z.of_nat w) 0); [lia|]. simpl.
  unfold zoom_order0. simpl. rewrite Hhi, Hwi.
  now rewrite !zoom_dimension by lia.
Qed.

End ResizeCrop.

(** X16.  ResizeCrop on a valid pair.  For a non-empty 3-channel image, an
    existing non-empty rectangular mask (sides below 2^31) and
    0 < S < 2^31, the generator yields exactly one sample and ends without
    an exception: the normalised bilinear resize of the image to S x S, and
    the S x S mask whose entry at (i, j) is the class of the mask pixel that
    [zoom] reads for (i, j), the class being 1 when the pixel's luminance
    is above 128 and 0 otherwise.  The image and the mask need not have
    the same size. *)
Theorem resize_crop_yields_one_sample {E : Externals} {L : ExternalsLaws E}
    (filename images_dir masks_dir : string) (a mask : img3) (S : Z) (h w : nat) :
  size0 a = false ->
  has_shape mask h w -> (0 < h)%nat -> (0 < w)%nat ->
  Z.of_nat h < 2 ^ 31 -> Z.of_nat w < 2 ^ 31 -> 0 < S < 2 ^ 31 ->
  let processed_image :=
    map2 normalize_pixel (interpolate INTER_LINEAR a (Z.to_nat S) (Z.to_nat S)) in
  let processed_mask :=
    gather 0 (map2 luminance_class mask) (Z.to_nat S) (Z.to_nat S) in
  IWDataset.process_data filename images_dir masks_dir (Some (Color3 a)) true
    (Some mask) S
  = Generated [(processed_image, processed_mask)] None
  /\ has_shape processed_image (Z.to_nat S) (Z.to_nat S)
  /\ has_shape processed_mask (Z.to_nat S) (Z.to_nat S)
  /\ Forall (Forall (fun o => o = 0 \/ o = 1)) processed_mask.
Proof.
  intros Hsz Hshape Hh Hw Hh31 Hw31 HS processed_image processed_mask.
  split; [|split; [|split]].
  - unfold IWDataset.process_data.
    rewrite process_image_color by (assumption || lia). simpl.
    rewrite (process_mask_eq _ mask S h w) by assumption. reflexivity.
  - apply map2_shape, interpolate_shape.
  - apply gather_shape.
  - apply List.Forall_forall. intros r Hr. apply List.Forall_forall. intros o Ho.
    assert (Hin : In o (concat processed_mask)) by (apply in_concat; eauto).
    apply gather_In in Hin as [Hin | ->]; [|now left].
    rewrite concat_map2 in Hin. apply in_map_iff in Hin as ([[b g] r0] & <- & _).
    unfold luminance_class. destruct (128 <? rgb2gray (r0, g, b)); [now right|now left].
Qed.

Lemma resize_crop_yields_one_sample_witness :
  IWDataset.process_data (H := exact_externals) "a.jpg" "images" "masks"
    (Some (Color3 [[(10, 20, 30)]])) true
    (Some [[(0, 0, 0); (200, 200, 200)]; [(129, 129, 129); (128, 128, 128)]]) 2
  = Generated [(map2 normalize_pixel [[(10, 20, 30); (10, 20, 30)];
                                      [(10, 20, 30); (10, 20, 30)]],
                [[0; 1]; [1; 0]])] None.
Proof.
  apply (resize_crop_yields_one_sample (E := exact_externals) (L := exact_laws)
           "a.jpg" "images" "masks" [[(10, 20, 30)]]
           [[(0, 0, 0); (200, 200, 200)]; [(129, 129, 129); (128, 128, 128)]] 2 2 2).
  - reflexivity.
  - split; [reflexivity|repeat constructor].
  - lia.
  - lia.
  - vm_compute; reflexivity.
  - vm_compute; reflexivity.
  - lia.
Defined.


Lemma decode_gathered `{E : Externals} (mask_path : string) (bin : img3) (n : nat) :
  (0 < n)%nat -> all_known_b bin = true ->
  IWDataset.decode_mask mask_path (gather (0, 0, 0) bin n n)
  = Ok (gather 0 (map2 color_class bin) n n).
Proof.
  intros Hn Hbin. rewrite IWDataset_decode_mask_eq.
  rewrite (shape_size0 (gather (0, 0, 0) bin n n) n n)
    by (apply gather_shape || assumption).
  assert (Hknown : all_known_b (gather (0, 0, 0) bin n n) = true).
  { apply all_known_b_forall. intros p Hp.
    apply gather_In in Hp as [Hp | ->]; [|reflexivity].
    rewrite all_known_b_forall in Hbin. now apply Hbin. }
  rewrite Hknown. f_equal. symmetry. apply (gather_map2 color_class (0, 0, 0)).
Qed.

(** X18.  Decoding and resampling commute in ResizeCrop.  The code decodes
    the binarised mask at its own resolution and then resamples the index
    mask with [zoom(order=0)]; resampling the binarised 3-channel mask with
    the same index map and decoding afterwards gives the same result, for
    every non-empty rectangular mask (sides below 2^31) and 0 < S < 2^31. *)
Theorem resize_crop_decode_commutes_with_zoom {E : Externals} {L : ExternalsLaws E}
    (mask_path : string) (mask : img3) (S : Z) (h w : nat) :
  has_shape mask h w -> (0 < h)%nat -> (0 < w)%nat ->
  Z.of_nat h < 2 ^ 31 -> Z.of_nat w < 2 ^ 31 -> 0 < S < 2 ^ 31 ->
  IWDataset.process_mask mask_path mask S
  = IWDataset.decode_mask mask_path
      (gather (0, 0, 0) (IWDataset.binarize (COLOR_BGR2RGB mask))
         (Z.to_nat S) (Z.to_nat S)).
Proof.
  intros Hshape Hh Hw Hh31 Hw31 HS.
  rewrite (process_mask_eq _ mask S h w) by assumption.
  rewrite decode_gathered by (lia || apply all_known_binarize).
  now rewrite color_class_binarize, luminance_class_eq.
Qed.

Lemma resize_crop_decode_commutes_with_zoom_witness :
  IWDataset.process_mask (H := exact_externals) "masks/a.png"
    [[(0, 0, 0); (200, 200, 200)]; [(129, 129, 129); (128, 128, 128)]] 3
  = Ok [[0; 1; 1]; [1; 0; 0]; [1; 0; 0]].
Proof.
  etransitivity.
  - exact (resize_crop_decode_commutes_with_zoom (E := exact_externals)
             (L := exact_laws) "masks/a.png"
             [[(0, 0, 0); (200, 200, 200)]; [(129, 129, 129); (128, 128, 128)]]
             3 2 2
             ltac:(split; [reflexivity|repeat constructor])
             ltac:(lia) ltac:(lia)
             ltac:(vm_compute; reflexivity) ltac:(vm_compute; reflexivity)
             ltac:(lia)).
  - reflexivity.
Defined.

(** * The mask file name of ResizeCrop *)

Lemma rsplit_dot_no_dot (s : string) :
  no_dot s = true -> rsplit_dot s = (s, false).
Proof.
  induction s as [|c s IH]; simpl; [reflexivity|].
  intros Hs. apply andb_true_iff in Hs as [Hc Hs].
  rewrite (IH Hs). apply negb_true_iff in Hc. now rewrite Hc.
Qed.

Lemma rsplit_dot_last (stem ext : string) :
  no_dot ext = true ->
  rsplit_dot (stem ++ String "."%char ext) = (stem, true).
Proof.
  intros Hext. induction stem as [|c stem IH]; simpl.
  - now rewrite (rsplit_dot_no_dot ext Hext).
  - now rewrite IH.
Qed.

(** X19.  The mask path of ResizeCrop.  For a file name [stem.ext] whose
    extension holds no dot - the stem may hold dots and separators - the
    mask looked for is [stem.png] in the masks directory, and for a file
    name without any dot it is the whole name followed by [.png]: when the
    image loads (3 channels, non-empty, S > 0) and the mask file does not
    exist, the generator yields nothing and ends with the
    FileNotFoundError that names this path. *)
Theorem resize_crop_mask_path `{E : Externals} (stem ext images_dir masks_dir : string)
    (a : img3) (mask : option img3) (S : Z) :
  no_dot ext = true -> size0 a = false -> 0 < S ->
  IWDataset.process_data (stem ++ String "."%char ext) images_dir masks_dir
    (Some (Color3 a)) false mask S
  = Generated [] (Some (FileNotFoundError
                          ("Mask file not found: "
                           ++ os_path_join masks_dir (stem ++ ".png"))))
  /\ (no_dot stem = true ->
      IWDataset.process_data stem images_dir masks_dir (Some (Color3 a)) false mask S
      = Generated [] (Some (FileNotFoundError
                              ("Mask file not found: "
                               ++ os_path_join masks_dir (stem ++ ".png"))))).
Proof.
  intros Hext Hsz HS. split.
  - unfold IWDataset.process_data.
    rewrite process_image_color by assumption. simpl.
    now rewrite rsplit_dot_last.
  - intros Hstem. unfold IWDataset.process_data.
    rewrite process_image_color by assumption. simpl.
    now rewrite rsplit_dot_no_dot.
Qed.

Lemma resize_crop_mask_path_witness :
  IWDataset.process_data (H := exact_externals) "scene.v2.jpg" "images" "masks"
    (Some (Color3 [[(1, 2, 3)]])) false None 2
  = Generated [] (Some (FileNotFoundError "Mask file not found: masks/scene.v2.png")).
Proof.
  apply (resize_crop_mask_path (E := exact_externals) "scene.v2" "jpg" "images" "masks"
           [[(1, 2, 3)]] None 2); [reflexivity|reflexivity|lia].
Defined.

(** * The in-memory view *)

Lemma np_index_in_range {A : Type} (arr : list A) (idx : Z) (d : A) :
  - Z.of_nat (length arr) <= idx < Z.of_nat (length arr) ->
  Dataset.np_index arr idx
  = Some (nth (Z.to_nat (idx mod Z.of_nat (length arr))) arr d).
Proof.
  intros Hidx. unfold Dataset.np_index.
  destruct (Z.ltb_spec idx (- Z.of_nat (length arr))); [lia|].
  destruct (Z.leb_spec (Z.of_nat (length arr)) idx); [lia|]. simpl.
  assert (Hmod : idx mod Z.of_nat (length arr)
                 = if idx <? 0 then idx + Z.of_nat (length arr) else idx).
  { destruct (Z.ltb_spec idx 0).
    - symmetry. apply Z.mod_unique with (q := -1); lia.
    - apply Z.mod_small. lia. }
  rewrite <- Hmod. apply nth_error_nth'.
  pose proof (Z.mod_pos_bound idx (Z.of_nat (length arr)) ltac:(lia)). lia.
Qed.

Lemma np_index_out_of_range {A : Type} (arr : list A) (idx : Z) :
  idx < - Z.of_nat (length arr) \/ Z.of_nat (length arr) <= idx ->
  Dataset.np_index arr idx = None.
Proof.
  intros Hidx. unfold Dataset.np_index.
  destruct (Z.ltb_spec idx (- Z.of_nat (length arr))); [reflexivity|].
  destruct (Z.leb_spec (Z.of_nat (length arr)) idx); [reflexivity|]. lia.
Qed.

(** X21.  Indexing the in-memory dataset.  For a dataset built from n
    images and n masks, [__len__] is n; [__getitem__(idx)] returns the
    sample at position [idx mod n] - the image split into its three channel
    planes, the mask unchanged - exactly for -n <= idx < n, so that -1 is
    the last sample, and raises IndexError for every other index. *)
Theorem getitem_index_range `{E : Externals} (data_images : list (array2 f32pixel))
    (data_masks : list (array2 Z)) (idx : Z) :
  length data_masks = length data_images ->
  let self := Dataset.__init__ data_images data_masks in
  let n := Dataset.__len__ self in
  n = Z.of_nat (length data_images)
  /\ (- n <= idx < n ->
      Dataset.__getitem__ self idx
      = Some (permute_2_0_1 (nth (Z.to_nat (idx mod n)) data_images []),
              nth (Z.to_nat (idx mod n)) data_masks []))
  /\ (idx < - n \/ n <= idx -> Dataset.__getitem__ self idx = None).
Proof.
  intros Hlen self n. unfold n, self, Dataset.__len__, Dataset.__getitem__. simpl.
  split; [reflexivity|]. split.
  - intros Hidx.
    rewrite (np_index_in_range data_images idx []) by assumption.
    rewrite (np_index_in_range data_masks idx []) by (rewrite Hlen; assumption).
    now rewrite Hlen.
  - intros Hidx. now rewrite (np_index_out_of_range data_images idx).
Qed.

Lemma getitem_index_range_witness :
  Dataset.__getitem__ (H := exact_externals)
    (Dataset.__init__ [[[(1 # 1, 2 # 1, 3 # 1)%Q]]; [[(4 # 1, 5 # 1, 6 # 1)%Q]]]
                      [[[0]]; [[1]]]) (-1)
  = Some (([[4 # 1]], [[5 # 1]], [[6 # 1]])%Q, [[1]]).
Proof.
  etransitivity.
  - exact (proj1 (proj2 (getitem_index_range (E := exact_externals)
             [[[(1 # 1, 2 # 1, 3 # 1)%Q]]; [[(4 # 1, 5 # 1, 6 # 1)%Q]]]
             [[[0]]; [[1]]] (-1) eq_refl))
             ltac:(vm_compute; split; [discriminate|reflexivity])).
  - reflexivity.
Defined.

(** X22.  What the training loop reads back.  When the image stored at an
    index is the image sample a [process_data] produced from the uint8
    image [img] (its normalised form), [__getitem__] returns the tensor
    whose plane c holds (v / 255 - mean_c) / std_c for the channel-c value
    v of each pixel of [img], in float32 operations, and the stored mask
    unchanged: the two permutations cancel. *)
Theorem getitem_returns_normalised_planes `{E : Externals} (self : Dataset.dataset)
    (idx : Z) (img : img3) (mask : array2 Z) :
  Dataset.np_index (Dataset.images self) idx = Some (normalize_image img) ->
  Dataset.np_index (Dataset.masks self) idx = Some mask ->
  Dataset.__getitem__ self idx
  = Some ((channel_plane (485 # 1000) (229 # 1000) (fun p => fst (fst p)) img,
           channel_plane (456 # 1000) (224 # 1000) (fun p => snd (fst p)) img,
           channel_plane (406 # 1000) (225 # 1000) snd img),
          mask)
  /\ permute_2_0_1 (normalize_image img)
     = normalize (permute_2_0_1 (to_unit_float img)).
Proof.
  intros Himg Hmask. unfold Dataset.__getitem__. rewrite Himg, Hmask.
  assert (Hplanes : permute_2_0_1 (normalize_image img)
            = (channel_plane (485 # 1000) (229 # 1000) (fun p => fst (fst p)) img,
               channel_plane (456 # 1000) (224 # 1000) (fun p => snd (fst p)) img,
               channel_plane (406 # 1000) (225 # 1000) snd img)).
  { rewrite normalize_image_eq. unfold permute_2_0_1, channel_plane.
    rewrite !map2_map2.
    f_equal; [f_equal|]; apply map2_ext_in; intros [[c0 c1] c2] _; reflexivity. }
  split; [now rewrite Hplanes|].
  rewrite Hplanes. unfold normalize, permute_2_0_1, to_unit_float, channel_plane.
  cbn [mean std]. rewrite !map2_map2.
  f_equal; [f_equal|]; apply map2_ext_in; intros [[c0 c1] c2] _; reflexivity.
Qed.

Lemma getitem_returns_normalised_planes_witness :
  Dataset.__getitem__ (H := exact_externals)
    (Dataset.__init__ [normalize_image [[(255, 0, 51)]]] [[[1]]]) 0
  = Some ((channel_plane (485 # 1000) (229 # 1000) (fun p => fst (fst p)) [[(255, 0, 51)]],
           channel_plane (456 # 1000) (224 # 1000) (fun p => snd (fst p)) [[(255, 0, 51)]],
           channel_plane (406 # 1000) (225 # 1000) snd [[(255, 0, 51)]]),
          [[1]]).
Proof.
  exact (proj1 (getitem_returns_normalised_planes (E := exact_externals)
           (Dataset.__init__ [normalize_image [[(255, 0, 51)]]] [[[1]]]) 0
           [[(255, 0, 51)]] [[1]] eq_refl eq_refl)).
Defined.

(** * Tiling: overlap and degenerate sizes *)

Lemma skipn_slice {A : Type} (a n k : Z) (l : list A) :
  0 <= a -> 0 <= k <= n ->
  skipn (Z.to_nat k) (slice a n l) = slice (a + k) (n - k) l.
Proof.
  intros Ha Hk. unfold slice.
  rewrite skipn_firstn_comm, skipn_skipn.
  f_equal; [lia|]. f_equal. lia.
Qed.

Lemma firstn_slice {A : Type} (a n k : Z) (l : list A) :
  0 <= k <= n -> firstn (Z.to_nat k) (slice a n l) = slice a k l.
Proof.
  intros Hk. unfold slice. rewrite firstn_firstn. f_equal. lia.
Qed.

Lemma crop_overlap {A : Type} (row col S k : Z) (a : array2 A) :
  0 <= row -> 0 <= k <= S ->
  skipn (Z.to_nat k) (crop row col S a)
  = firstn (Z.to_nat (S - k)) (crop (row + k) col S a).
Proof.
  intros Hrow Hk. unfold crop.
  rewrite skipn_map, firstn_map. f_equal.
  rewrite skipn_slice by lia.
  rewrite <- (firstn_slice (row + k) S (S - k)) by lia. reflexivity.
Qed.

Lemma tile_at_overlap `{E : Externals} (image mask : img3) (S row col : Z) :
  0 <= row -> 0 <= S ->
  skipn (Z.to_nat (S / 2)) (fst (tile_at image mask S (row, col)))
  = firstn (Z.to_nat (S - S / 2)) (fst (tile_at image mask S (row + S / 2, col)))
  /\ skipn (Z.to_nat (S / 2)) (snd (tile_at image mask S (row, col)))
     = firstn (Z.to_nat (S - S / 2)) (snd (tile_at image mask S (row + S / 2, col))).
Proof.
  intros Hrow HS.
  assert (Hk : 0 <= S / 2 <= S).
  { split; [apply Z.div_pos; lia|]. apply Z.div_le_upper_bound; lia. }
  unfold tile_at, map2. simpl.
  rewrite !skipn_map, !firstn_map.
  split; f_equal; now apply crop_overlap.
Qed.

Lemma nth_flat_map_const {A B : Type} (f : A -> list B) (l : list A) (m i : nat)
    (dx : A) (d : B) :
  (0 < m)%nat -> (forall x, length (f x) = m) -> (i < length l * m)%nat ->
  nth i (flat_map f l) d = nth (i mod m) (f (nth (i / m) l dx)) d.
Proof.
  intros Hm Hf. revert i. induction l as [|x l IH]; intros i Hi; simpl in *; [lia|].
  destruct (Nat.lt_ge_cases i m) as [Hlt|Hge].
  - rewrite app_nth1 by (rewrite Hf; assumption).
    now rewrite Nat.div_small, Nat.mod_small by assumption.
  - rewrite app_nth2 by (rewrite Hf; assumption). rewrite Hf.
    rewrite IH by lia.
    assert (Hi' : i = ((i - m) + 1 * m)%nat) by lia.
    set (j := (i - m)%nat) in *. clearbody j. subst i.
    rewrite Nat.div_add, Nat.Div0.mod_add by lia.
    now rewrite Nat.add_1_r.
Qed.

Lemma nth_range_items (stop step d : Z) (j : nat) :
  (j < length (range_items 0 stop step))%nat ->
  nth j (range_items 0 stop step) d = Z.of_nat j * step.
Proof.
  unfold range_items. rewrite length_map, length_seq. intros Hj.
  set (g := fun k : nat => 0 + Z.of_nat k * step).
  rewrite (nth_indep _ d (g 0%nat)) by (now rewrite length_map, length_seq).
  rewrite map_nth, seq_nth by assumption. unfold g. simpl. lia.
Qed.

Lemma tile_origins_nth (H W S : Z) (i : nat) (d : Z * Z) :
  let nr := length (range_items 0 (H - S + 1) (S / 2)) in
  let nc := length (range_items 0 (W - S + 1) (S / 2)) in
  (i < nr * nc)%nat ->
  nth i (tile_origins H W S) d
  = (Z.of_nat (i / nc) * (S / 2), Z.of_nat (i mod nc) * (S / 2)).
Proof.
  intros nr nc Hi.
  assert (Hnc : (0 < nc)%nat) by (destruct nc; lia).
  unfold tile_origins.
  rewrite (nth_flat_map_const _ _ nc i 0 d Hnc)
    by (try (intros x; apply length_map); assumption).
  assert (Hrow : (i / nc < nr)%nat) by (apply Nat.Div0.div_lt_upper_bound; lia).
  assert (Hcol : (i mod nc < nc)%nat) by (apply Nat.mod_upper_bound; lia).
  rewrite (nth_indep _ d (pair (nth (i / nc) (range_items 0 (H - S + 1) (S / 2)) 0) 0))
    by (now rewrite length_map).
  rewrite map_nth. now rewrite !nth_range_items by assumption.
Qed.

Lemma take_while_length {A : Type} (ok : A -> bool) (l : list A) :
  (length (take_while ok l) <= length l)%nat.
Proof.
  induction l as [|x l IH]; simpl; [lia|]. destruct (ok x); simpl; lia.
Qed.

Lemma nth_take_while {A : Type} (ok : A -> bool) (l : list A) (i : nat) (d : A) :
  (i < length (take_while ok l))%nat -> nth i (take_while ok l) d = nth i l d.
Proof.
  revert i. induction l as [|x l IH]; intros i; simpl; [lia|].
  destruct (ok x); simpl; [|lia].
  destruct i as [|i]; [reflexivity|]. intros Hi. apply IH. lia.
Qed.

(** X23.  Consecutive tiles of a column overlap by half.  In the sequence
    [process_data] yields for an h x w scene and 2 <= S <= h, w, the
    sample below sample number i is sample number i + ncols, where
    ncols = (w-S)//(S//2) + 1 is the number of tile columns; whenever both
    were yielded, the rows of sample i from S//2 on are the first
    S - S//2 rows of sample i + ncols, in the image part and in the mask
    part: the lower part of a tile is the upper part of the tile below
    it, whatever the mask holds. *)
Theorem yielded_tiles_overlap_by_half `{E : Externals} (filename : string)
    (raw : raw_image) (image mask : img3) (S : Z) (h w i : nat)
    (d : array2 f32pixel * array2 Z) :
  IWFullSceneDataset.ensure_bgr raw = Ok image ->
  has_shape image h w -> has_shape mask h w ->
  2 <= S -> S <= Z.of_nat h -> S <= Z.of_nat w ->
  let samples :=
    yielded (IWFullSceneDataset.process_data filename (Some raw) (Some mask) S) in
  let ncols := Z.to_nat ((Z.of_nat w - S) / (S / 2) + 1) in
  (i + ncols < length samples)%nat ->
  skipn (Z.to_nat (S / 2)) (fst (nth i samples d))
  = firstn (Z.to_nat (S - S / 2)) (fst (nth (i + ncols) samples d))
  /\ skipn (Z.to_nat (S / 2)) (snd (nth i samples d))
     = firstn (Z.to_nat (S - S / 2)) (snd (nth (i + ncols) samples d)).
Proof.
  intros Hbgr Himg Hmask HS Hh Hw samples ncols Hi.
  assert (Hstep : 0 < S / 2) by (apply Z.div_str_pos; lia).
  unfold samples in *. clear samples.
  rewrite (process_data_crop_tiles _ _ _ _ _ Hbgr) in *.
  rewrite (crop_tiles_general filename image mask S h w) in * by assumption.
  simpl in *. rewrite length_map in Hi.
  set (origins := tile_origins (Z.of_nat h) (Z.of_nat w) S) in *.
  set (nr := length (range_items 0 (Z.of_nat h - S + 1) (S / 2))).
  set (nc := length (range_items 0 (Z.of_nat w - S + 1) (S / 2))).
  assert (Hnc : ncols = nc).
  { unfold ncols, nc.
    pose proof (range_items_length 0 (Z.of_nat w - S + 1) (S / 2)) as Hlen.
    rewrite range_len_from_0 in Hlen by lia.
    assert (0 <= (Z.of_nat w - S) / (S / 2)) by (apply Z.div_pos; lia). lia. }
  rewrite Hnc in *.
  assert (Hlen : length origins = (nr * nc)%nat).
  { unfold origins, tile_origins. apply length_flat_map_const.
    intros x. apply length_map. }
  pose proof (take_while_length (tile_decodes mask S) origins) as Hle.
  assert (Hnth : forall j, (j < length (take_while (tile_decodes mask S) origins))%nat ->
            nth j (map (tile_at image mask S)
                       (take_while (tile_decodes mask S) origins)) d
            = tile_at image mask S
                (Z.of_nat (j / nc) * (S / 2), Z.of_nat (j mod nc) * (S / 2))).
  { intros j Hj.
    rewrite (nth_indep _ d (tile_at image mask S (0, 0))) by (now rewrite length_map).
    rewrite map_nth, nth_take_while by assumption.
    unfold origins. now rewrite tile_origins_nth by (fold nr nc; lia). }
  rewrite !Hnth by lia.
  assert (Hpos : (0 < nc)%nat) by lia.
  replace (i + nc)%nat with (i + 1 * nc)%nat by lia.
  rewrite Nat.div_add, Nat.Div0.mod_add by lia.
  replace (Z.of_nat (i / nc + 1) * (S / 2))
    with (Z.of_nat (i / nc) * (S / 2) + S / 2) by lia.
  apply tile_at_overlap; [|lia].
  apply Z.mul_nonneg_nonneg; lia.
Qed.

Lemma yielded_tiles_overlap_by_half_witness :
  let samples :=
    yielded (IWFullSceneDataset.process_data (H := exact_externals) "scene.png"
      (Some (Color3 [[(1, 1, 1); (2, 2, 2)]; [(3, 3, 3); (4, 4, 4)];
                     [(5, 5, 5); (6, 6, 6)]]))
      (Some [[(0, 0, 0); (0, 0, 0)]; [(255, 255, 255); (0, 0, 0)];
             [(0, 0, 0); (255, 255, 255)]]) 2) in
  skipn (Z.to_nat (2 / 2)) (snd (nth 0 samples ([], [])))
  = firstn (Z.to_nat (2 - 2 / 2))
      (snd (nth (0 + Z.to_nat ((Z.of_nat 2 - 2) / (2 / 2) + 1)) samples ([], []))).
Proof.
  exact (proj2 (yielded_tiles_overlap_by_half (E := exact_externals) "scene.png"
           (Color3 [[(1, 1, 1); (2, 2, 2)]; [(3, 3, 3); (4, 4, 4)];
                    [(5, 5, 5); (6, 6, 6)]])
           [[(1, 1, 1); (2, 2, 2)]; [(3, 3, 3); (4, 4, 4)]; [(5, 5, 5); (6, 6, 6)]]
           [[(0, 0, 0); (0, 0, 0)]; [(255, 255, 255); (0, 0, 0)];
            [(0, 0, 0); (255, 255, 255)]] 2 3 2 0 ([], []) eq_refl
           ltac:(split; [reflexivity|repeat constructor])
           ltac:(split; [reflexivity|repeat constructor])
           ltac:(lia) ltac:(vm_compute; discriminate) ltac:(vm_compute; discriminate)
           ltac:(vm_compute; lia))).
Defined.

(** X24.  A negative tile size is not rejected.  For img_size < 0 the size
    check passes, the stride [img_size // 2] is negative and both ranges
    are empty: the generator ends without an exception and without a
    sample, whatever the image and the mask. *)
Theorem tiling_negative_size_yields_nothing `{E : Externals} (filename : string)
    (image mask : img3) (S : Z) :
  S < 0 ->
  IWFullSceneDataset.crop_tiles filename image mask S = Generated [] None.
Proof.
  intros HS. unfold IWFullSceneDataset.crop_tiles.
  assert (Hh : 0 <= height image) by (unfold height; lia).
  assert (Hw : 0 <= width image).
  { unfold width. destruct image; lia. }
  destruct (Z.ltb_spec (height image) S); [lia|].
  destruct (Z.ltb_spec (width image) S); [lia|]. simpl.
  assert (Hstep : S / 2 < 0) by (apply Z.div_lt_upper_bound; lia).
  unfold py_range. destruct (Z.eqb_spec (S / 2) 0); [lia|].
  unfold range_items, range_len.
  destruct (Z.ltb_spec 0 (S / 2)); [lia|].
  destruct (Z.ltb_spec (height image - S + 1) 0); [lia|]. reflexivity.
Qed.

Lemma tiling_negative_size_yields_nothing_witness :
  IWFullSceneDataset.crop_tiles (H := exact_externals) "scene.png"
    [[(1, 2, 3)]] [[(0, 0, 0)]] (-3)
  = Generated [] None.
Proof.
  apply (tiling_negative_size_yields_nothing (E := exact_externals)). lia.
Defined.
